(** * exile-rs: the Path of Building manager front end and its install pipeline

    A shallow embedding of the Svelte/TypeScript sources of exile-rs
    (the route pages, the settings store and the updater store) and of the
    back-end contract they call, together with the properties the
    specification states about them. *)

From Stdlib Require Import String Ascii List Bool Arith Lia.
From stdpp Require Import base option gmap strings.
Import ListNotations.

Local Open Scope string_scope.
Local Open Scope list_scope.

(** ** JavaScript control flow

    An [async] function either returns a value or throws (its promise
    rejects).  Module-level [$state] is threaded explicitly. *)

Module Js.

(** What a [catch (e)] clause can receive: an [Error] with its [name]
    (["Error"], ["TypeError"], ...) and its [message], or any other value,
    kept through its string conversion. *)
Inductive Value : Type :=
| ErrorObj (name message : string)
| Other (repr : string).

(** [String(e)], also what a template literal interpolates.  For an
    [Error] this is [Error.prototype.toString]: the name alone when the
    message is empty, the message alone when the name is empty, and
    [name: message] otherwise. *)
Definition to_string (e : Value) : string :=
  match e with
  | ErrorObj n m =>
      if String.eqb n "" then m
      else if String.eqb m "" then n
      else n +:+ ": " +:+ m
  | Other r => r
  end.

(** The names every object literal inherits from [Object.prototype]. *)
Definition object_prototype_keys : list string :=
  ["constructor"; "hasOwnProperty"; "isPrototypeOf"; "propertyIsEnumerable";
   "toLocaleString"; "toString"; "valueOf"; "__proto__";
   "__defineGetter__"; "__defineSetter__"; "__lookupGetter__";
   "__lookupSetter__"].

(** What [o[key]] gives on an object literal whose own values are
    strings: the own value, else the member of that name inherited from
    [Object.prototype] (a function or an object, never [null] or
    [undefined]), else [undefined]. *)
Inductive Member : Type :=
| Str (text : string)
| Inherited (key : string)
| Undefined.

Definition member (o : gmap string string) (key : string) : Member :=
  match o !! key with
  | Some text => Str text
  | None =>
      if bool_decide (key ∈ object_prototype_keys) then Inherited key
      else Undefined
  end.

(** [v ?? fallback] *)
Definition nullish_or (v : Member) (fallback : string) : Member :=
  match v with
  | Undefined => Str fallback
  | _ => v
  end.

Inductive Completion (A : Type) : Type :=
| Normal (a : A)
| Throw (e : Value).
Arguments Normal {A} a.
Arguments Throw {A} e.

Definition M (S A : Type) : Type := S -> S * Completion A.

Section Ops.
Context {S : Type}.

Definition ret {A} (a : A) : M S A := fun s => (s, Normal a).

Definition bind {A B} (m : M S A) (k : A -> M S B) : M S B :=
  fun s =>
    match m s with
    | (s', Normal a) => k a s'
    | (s', Throw e) => (s', Throw e)
    end.

Definition throw {A} (e : Value) : M S A := fun s => (s, Throw e).

Definition get : M S S := fun s => (s, Normal s).

Definition modify (f : S -> S) : M S unit := fun s => (f s, Normal tt).

(** [await p] where the promise [p] settles to [c]. *)
Definition await {A} (c : Completion A) : M S A := fun s => (s, c).

(** [try { body } catch (e) { handler e }] *)
Definition try_catch {A} (body : M S A) (handler : Value -> M S A) : M S A :=
  fun s =>
    match body s with
    | (s', Normal a) => (s', Normal a)
    | (s', Throw e) => handler e s'
    end.

(** [try { body } finally { fin }]: [fin] runs on every exit of [body];
    the completion of [body] is kept unless [fin] itself throws. *)
Definition try_finally {A} (body : M S A) (fin : M S unit) : M S A :=
  fun s =>
    match body s with
    | (s', c) =>
        match fin s' with
        | (s'', Normal _) => (s'', c)
        | (s'', Throw e) => (s'', Throw e)
        end
    end.

Definition when (b : bool) (m : M S unit) : M S unit :=
  if b then m else ret tt.
End Ops.

Definition returns {S A} (m : M S A) (s : S) : Prop :=
  exists a, snd (m s) = Normal a.

Definition throws {S A} (m : M S A) (s : S) : Prop :=
  exists e, snd (m s) = Throw e.

End Js.

Import Js.

Declare Scope js_scope.
Delimit Scope js_scope with js.
Notation "x <- m ;; k" := (Js.bind m (fun x => k))
  (at level 60, m at next level, right associativity) : js_scope.
Notation "m ;;; k" := (Js.bind m (fun _ => k))
  (at level 60, right associativity) : js_scope.

(** ** Types of the generated bindings *)

Module Bindings.

(** Modelled from the spec: [src/lib/bindings.ts] is generated from the
    Rust side and is not part of the sources.  The error taxonomy is the
    one of section 7; the repository guide in the sources gives the enum
    with its serde attributes ([tag = kind], [content = message]), where
    [Cancelled] is the only variant without a payload, and the pages say
    the same beside [handleError]: all non-cancelled variants have a
    message property. *)
Inductive ErrorKind : Type :=
| Cancelled
| Network (message : string)
| Io (message : string)
| NotFound (message : string)
| Conflict (message : string)
| Domain (message : string).

(** The [kind] tag of the serialised value, as the pages compare it. *)
Definition kind (e : ErrorKind) : string :=
  match e with
  | Cancelled => "cancelled"
  | Network _ => "network"
  | Io _ => "io"
  | NotFound _ => "notFound"
  | Conflict _ => "conflict"
  | Domain _ => "domain"
  end.

(** The [message] property; [undefined] where the variant has none. *)
Definition message (e : ErrorKind) : option string :=
  match e with
  | Cancelled => None
  | Network m | Io m | NotFound m | Conflict m | Domain m => Some m
  end.

(** [{ status: "ok", data } | { status: "error", error }] *)
Inductive Result (A : Type) : Type :=
| Ok (data : A)
| Error (error : ErrorKind).
Arguments Ok {A} data.
Arguments Error {A} error.

(** Modelled from the spec: [GoogleDriveFileInfo], the [ArtifactRef] of
    section 3. *)
Record GoogleDriveFileInfo : Type := {
  id : string;
  name : string;
  isFolder : bool
}.

(** Modelled from the spec: [PobVersion], the [InstallRecord] of section 3;
    the time stamp is kept as the text the back end serialises. *)
Record PobVersion : Type := {
  version : string;
  fileId : string;
  installedAt : string
}.

(** Modelled from the spec: [DownloadMode] of section 3. *)
Inductive DownloadMode : Type := Auto | Parallel | Single.

Definition mode_string (m : DownloadMode) : string :=
  match m with
  | Auto => "auto"
  | Parallel => "parallel"
  | Single => "single"
  end.

Inductive Phase : Type :=
| Downloading | Extracting | BackingUp | Moving | Restoring | Finalizing
| Uninstalling.

Inductive Status : Type :=
| Started | InProgress | Completed | Failed | StatusCancelled.

(** Modelled from the spec: [InstallProgress] of section 3.  The percentage
    is a float in the source; no function below computes with it and it
    is kept as a whole number of percent. *)
Record InstallProgress : Type := {
  phase : Phase;
  status : Status;
  percent : nat;
  totalSize : option nat;
  reason : option string
}.

#[global] Instance ErrorKind_eq_dec : EqDecision ErrorKind.
Proof. solve_decision. Defined.
#[global] Instance DownloadMode_eq_dec : EqDecision DownloadMode.
Proof. solve_decision. Defined.
#[global] Instance Phase_eq_dec : EqDecision Phase.
Proof. solve_decision. Defined.
#[global] Instance Status_eq_dec : EqDecision Status.
Proof. solve_decision. Defined.

(** The [phase] tag of the serialised value, as the pages look it up. *)
Definition phase_string (p : Phase) : string :=
  match p with
  | Downloading => "downloading"
  | Extracting => "extracting"
  | BackingUp => "backingUp"
  | Moving => "moving"
  | Restoring => "restoring"
  | Finalizing => "finalizing"
  | Uninstalling => "uninstalling"
  end.

End Bindings.

Import Bindings.

(** ** The updater store, [src/lib/stores/updater.svelte.ts] *)

Module Updater.

(** The plugin's [Update] handle, opaque here: its version text. *)
Record Update : Type := { update_version : string }.

Record UpdateState : Type := {
  checking : bool;
  available : bool;
  downloading : bool;
  progress : nat;
  update : option Update;
  error : option string
}.

Definition initial : UpdateState :=
  {| checking := false; available := false; downloading := false;
     progress := 0; update := None; error := None |}.

Definition set_checking (b : bool) (s : UpdateState) : UpdateState :=
  {| checking := b; available := available s; downloading := downloading s;
     progress := progress s; update := update s; error := error s |}.

Definition set_available (b : bool) (s : UpdateState) : UpdateState :=
  {| checking := checking s; available := b; downloading := downloading s;
     progress := progress s; update := update s; error := error s |}.

Definition set_update (u : option Update) (s : UpdateState) : UpdateState :=
  {| checking := checking s; available := available s;
     downloading := downloading s; progress := progress s;
     update := u; error := error s |}.

Definition set_error (e : option string) (s : UpdateState) : UpdateState :=
  {| checking := checking s; available := available s;
     downloading := downloading s; progress := progress s;
     update := update s; error := e |}.

Definition resetUpdateState : M UpdateState unit :=
  modify (fun _ => initial).

(** [e instanceof Error ? e.message : String(e)] *)
Definition error_text (e : Js.Value) : string :=
  match e with
  | ErrorObj _ m => m
  | Other r => r
  end.

Section CheckForUpdate.
(** What the promise of the plugin's [check()] settles to. *)
Variable check : Completion (option Update).

Definition checkForUpdate : M UpdateState (option Update) :=
  (modify (set_checking true) ;;;
   modify (set_error None) ;;;
   try_finally
     (try_catch
        (u <- await check ;;
         modify (set_update u) ;;;
         modify (set_available (bool_decide (u <> None))) ;;;
         ret u)
        (fun e =>
           modify (set_error (Some (error_text e))) ;;;
           ret None))
     (modify (set_checking false)))%js.
End CheckForUpdate.

(** *** Download and install *)

Definition set_downloading (b : bool) (s : UpdateState) : UpdateState :=
  {| checking := checking s; available := available s; downloading := b;
     progress := progress s; update := update s; error := error s |}.

Definition set_progress (n : nat) (s : UpdateState) : UpdateState :=
  {| checking := checking s; available := available s;
     downloading := downloading s; progress := n;
     update := update s; error := error s |}.

(** The events the plugin hands to the callback; a [Started] event may
    lack the content length. *)
Inductive DownloadEvent : Type :=
| Started (contentLength : option nat)
| Progress (chunkLength : nat)
| Finished.

(** The two locals of [downloadAndInstall] that the callback updates. *)
Record Transfer : Type := {
  downloaded : nat;
  contentLength : nat
}.

(** The calls that leave the module. *)
Inductive PluginCall : Type :=
| CallDownloadAndInstall (u : Update)
| CallRelaunch.

(** The module's state together with the calls made so far. *)
Record Session : Type := {
  state : UpdateState;
  calls : list PluginCall
}.

Definition on_state (f : UpdateState -> UpdateState) : M Session unit :=
  modify (fun w => {| state := f (state w); calls := calls w |}).

Definition call_out (c : PluginCall) : M Session unit :=
  modify (fun w => {| state := state w; calls := calls w ++ [c] |}).

Section DownloadAndInstall.
(** [Math.round((downloaded / contentLength) * 100)], a computation on
    floats that is taken as given. *)
Variable round_percent : nat -> nat -> nat.

(** The callback, on one event. *)
Definition on_event (ev : DownloadEvent) (t : Transfer) (s : UpdateState)
  : Transfer * UpdateState :=
  match ev with
  | Started len =>
      ({| downloaded := downloaded t; contentLength := default 0 len |}, s)
  | Progress chunk =>
      let t' := {| downloaded := downloaded t + chunk;
                   contentLength := contentLength t |} in
      (t',
       if (0 <? contentLength t')%nat
       then set_progress (round_percent (downloaded t') (contentLength t')) s
       else s)
  | Finished => (t, set_progress 100 s)
  end.

Fixpoint feed (evs : list DownloadEvent) (t : Transfer) (s : UpdateState)
  : Transfer * UpdateState :=
  match evs with
  | [] => (t, s)
  | ev :: rest => let '(t', s') := on_event ev t s in feed rest t' s'
  end.

(** What the plugin does with one call of [update.downloadAndInstall]: the
    events it reports, in order, and what its promise settles to; and what
    the promise of [relaunch()] settles to. *)
Variable events : list DownloadEvent.
Variable download : Completion unit.
Variable relaunch : Completion unit.

Definition downloadAndInstall : M Session unit :=
  (w <- get ;;
   match update (state w) with
   | None => ret tt
   | Some u =>
       on_state (set_downloading true) ;;;
       on_state (set_progress 0) ;;;
       on_state (set_error None) ;;;
       try_catch
         (call_out (CallDownloadAndInstall u) ;;;
          on_state (fun s =>
            snd (feed events {| downloaded := 0; contentLength := 0 |} s)) ;;;
          await download ;;;
          call_out CallRelaunch ;;;
          await relaunch)
         (fun e =>
            on_state (set_error (Some (error_text e))) ;;;
            on_state (set_downloading false))
   end)%js.
End DownloadAndInstall.

(** The bytes reported by the [Progress] events of a list. *)
Definition reported (evs : list DownloadEvent) : nat :=
  sum_list_with
    (fun ev => match ev with Progress chunk => chunk | _ => 0 end) evs.

(** The events of a download whose length never becomes known: no
    [Started] event carries a positive length. *)
Definition length_unknown (evs : list DownloadEvent) : bool :=
  forallb
    (fun ev => match ev with Started (Some (S _)) => false | _ => true end)
    evs.

Definition has_finished (evs : list DownloadEvent) : bool :=
  existsb (fun ev => match ev with Finished => true | _ => false end) evs.

End Updater.

(** ** The settings store, [settings.svelte.ts] *)

Module Settings.

Record AppSettings : Type := { autoCheckUpdate : bool }.

Definition DEFAULT_SETTINGS : AppSettings := {| autoCheckUpdate := true |}.

(** The plugin's [LazyStore] on [settings.json]: the entries of the file,
    and the copy in memory once the file has been read ([None] before the
    first use).  The only key the module uses holds a boolean. *)
Record LazyStore : Type := {
  cache : option (gmap string bool);
  on_disk : gmap string bool
}.

(** The entries the store answers from. *)
Definition entries (st : LazyStore) : gmap string bool :=
  default (on_disk st) (cache st).

(** The module's state: the store and the one shared [settings] object.
    [loadSettings] and [getSettings] hand out that object itself, not a
    copy; a caller reads it through [deref] in the state of the moment. *)
Record State : Type := {
  store : LazyStore;
  settings : AppSettings
}.

Inductive SettingsRef : Type := TheSettings.

Definition deref (s : State) (r : SettingsRef) : AppSettings :=
  match r with TheSettings => settings s end.

(** [let settings = $state({ ...DEFAULT_SETTINGS })] over a store that has
    not been read yet. *)
Definition initial (file : gmap string bool) : State :=
  {| store := {| cache := None; on_disk := file |};
     settings := DEFAULT_SETTINGS |}.

(** The store can fail on each call (the file cannot be read or
    written); [io] says how each call of a run settles. *)
Inductive StoreCall : Type := CallGet | CallSet | CallSave.

Section WithStore.
Variable io : StoreCall -> option Js.Value.

Definition settle {A} (c : StoreCall) (a : A) : Completion A :=
  match io c with
  | None => Normal a
  | Some e => Throw e
  end.

Definition with_store (f : LazyStore -> LazyStore) : M State unit :=
  modify (fun s => {| store := f (store s); settings := settings s |}).

Definition store_get (key : string) : M State (option bool) :=
  (s <- get ;;
   found <- await (settle CallGet (entries (store s) !! key)) ;;
   with_store (fun st =>
     {| cache := Some (entries st); on_disk := on_disk st |}) ;;;
   ret found)%js.

Definition store_set (key : string) (value : bool) : M State unit :=
  (await (settle CallSet tt) ;;;
   with_store (fun st =>
     {| cache := Some (<[key := value]> (entries st));
        on_disk := on_disk st |}))%js.

Definition store_save : M State unit :=
  (await (settle CallSave tt) ;;;
   with_store (fun st =>
     {| cache := Some (entries st); on_disk := entries st |}))%js.

Definition set_autoCheckUpdate (b : bool) : M State unit :=
  modify (fun s =>
    {| store := store s; settings := {| autoCheckUpdate := b |} |}).

(** [autoCheckUpdate ?? DEFAULT_SETTINGS.autoCheckUpdate] *)
Definition loadSettings : M State SettingsRef :=
  (stored <- store_get "autoCheckUpdate" ;;
   set_autoCheckUpdate
     (default (autoCheckUpdate DEFAULT_SETTINGS) stored) ;;;
   ret TheSettings)%js.

Definition setAutoCheckUpdate (value : bool) : M State unit :=
  (store_set "autoCheckUpdate" value ;;;
   store_save ;;;
   set_autoCheckUpdate value)%js.

Definition getSettings : M State SettingsRef := ret TheSettings.
End WithStore.

End Settings.


(** ** What the pages do to the outside world *)

Module Ui.

(** The visible error of a page: [{ kind: string; message?: string }]. *)
Record UiError : Type := {
  kind : string;
  message : option string
}.

Inductive Command : Type :=
| CmdGetInstallPath
| CmdInstalledPobInfo
| CmdFetchPob (refresh : bool)
| CmdParseVersion (fileName : string)
| CmdInstallPob (file : GoogleDriveFileInfo) (mode : option string)
| CmdCancelInstallPob
| CmdUninstallPob
| CmdExecutePob.

Inductive ToastLevel : Type := ToastSuccess | ToastError | ToastInfo.

Inductive Callback : Type := CheckInstalledVersion.

(** Everything a handler does besides changing its own state, in order. *)
Inductive Effect : Type :=
| Invoked (c : Command)
| Toast (level : ToastLevel) (title : string) (description : option string)
| SetTimeout (callback : Callback) (ms : nat).

(** The [commands] object of the bindings: each command is answered by the
    back end, whose own state [B] it may change; the promise settles to a
    [Result], or rejects when the call itself cannot be made. *)
Class Commands (B : Type) : Type := {
  getInstallPath : B -> B * Completion (Result string);
  installedPobInfo : B -> B * Completion (Result (option PobVersion));
  fetchPob : bool -> B -> B * Completion (Result GoogleDriveFileInfo);
  parseVersion : string -> B -> B * Completion (Result string);
  installPob :
    GoogleDriveFileInfo -> option string -> B -> B * Completion (Result unit);
  cancelInstallPob : B -> B * Completion (Result unit);
  uninstallPob : B -> B * Completion (Result unit);
  executePob : B -> B * Completion (Result unit)
}.

Record World (P B : Type) : Type := {
  page : P;
  backend : B;
  trace : list Effect
}.
Arguments page {P B} w.
Arguments backend {P B} w.
Arguments trace {P B} w.

Section World.
Context {P B : Type}.

Definition emit (e : Effect) : M (World P B) unit :=
  modify (fun w =>
    {| page := page w; backend := backend w; trace := trace w ++ [e] |}).

Definition update (f : P -> P) : M (World P B) unit :=
  modify (fun w =>
    {| page := f (page w); backend := backend w; trace := trace w |}).

Definition read : M (World P B) P :=
  (w <- get ;; ret (page w))%js.

(** [await commands.c(...)]: the call is recorded, then answered. *)
Definition invoke {A} (c : Command) (answer : B -> B * Completion A)
  : M (World P B) A :=
  (emit (Invoked c) ;;;
   fun w =>
     let '(b, r) := answer (backend w) in
     ({| page := page w; backend := b; trace := trace w |}, r))%js.

Definition toast (level : ToastLevel) (title : string)
    (description : option string) : M (World P B) unit :=
  emit (Toast level title description).

Definition setTimeout (callback : Callback) (ms : nat) : M (World P B) unit :=
  emit (SetTimeout callback ms).
End World.

(** The commands a trace has issued. *)
Definition invoked (t : list Effect) : list Command :=
  omap (fun e => match e with Invoked c => Some c | _ => None end) t.

Definition is_installPob (c : Command) : bool :=
  match c with CmdInstallPob _ _ => true | _ => false end.

Definition is_error_toast (e : Effect) : bool :=
  match e with Toast ToastError _ _ => true | _ => false end.

(** The two variants of the alert component the pages use. *)
Inductive AlertVariant : Type := VariantDefault | VariantDestructive.

Record Alert : Type := {
  variant : AlertVariant;
  title : string;
  description : option string
}.

End Ui.

Import Ui.

(** ** The main route, [src/routes/+page.svelte] *)

Module Page.

Record State : Type := {
  installedVersion : option PobVersion;
  latestVersion : option GoogleDriveFileInfo;
  latestVersionString : option string;
  installPath : option string;
  isInitialLoading : bool;
  isLoading : bool;
  isFetchingLatest : bool;
  error : option UiError;
  installProgress : option InstallProgress;
  showUninstallDialog : bool;
  downloadMode : string;
  localStorage : gmap string string
}.

(** [(localStorage.getItem("downloadMode") as DownloadMode) || "auto"]:
    a missing entry and the empty string both give ["auto"]. *)
Definition initial_downloadMode (storage : gmap string string) : string :=
  match storage !! "downloadMode" with
  | Some m => if String.eqb m "" then "auto" else m
  | None => "auto"
  end.

Definition initial (storage : gmap string string) : State :=
  {| installedVersion := None; latestVersion := None;
     latestVersionString := None; installPath := None;
     isInitialLoading := true; isLoading := false;
     isFetchingLatest := false; error := None; installProgress := None;
     showUninstallDialog := false;
     downloadMode := initial_downloadMode storage;
     localStorage := storage |}.

Definition set_installedVersion (v : option PobVersion) (s : State) : State :=
  {| installedVersion := v; latestVersion := latestVersion s;
     latestVersionString := latestVersionString s;
     installPath := installPath s; isInitialLoading := isInitialLoading s;
     isLoading := isLoading s; isFetchingLatest := isFetchingLatest s;
     error := error s; installProgress := installProgress s;
     showUninstallDialog := showUninstallDialog s;
     downloadMode := downloadMode s; localStorage := localStorage s |}.

Definition set_latestVersion (v : option GoogleDriveFileInfo) (s : State)
  : State :=
  {| installedVersion := installedVersion s; latestVersion := v;
     latestVersionString := latestVersionString s;
     installPath := installPath s; isInitialLoading := isInitialLoading s;
     isLoading := isLoading s; isFetchingLatest := isFetchingLatest s;
     error := error s; installProgress := installProgress s;
     showUninstallDialog := showUninstallDialog s;
     downloadMode := downloadMode s; localStorage := localStorage s |}.

Definition set_latestVersionString (v : option string) (s : State) : State :=
  {| installedVersion := installedVersion s;
     latestVersion := latestVersion s; latestVersionString := v;
     installPath := installPath s; isInitialLoading := isInitialLoading s;
     isLoading := isLoading s; isFetchingLatest := isFetchingLatest s;
     error := error s; installProgress := installProgress s;
     showUninstallDialog := showUninstallDialog s;
     downloadMode := downloadMode s; localStorage := localStorage s |}.

Definition set_installPath (v : option string) (s : State) : State :=
  {| installedVersion := installedVersion s;
     latestVersion := latestVersion s;
     latestVersionString := latestVersionString s;
     installPath := v; isInitialLoading := isInitialLoading s;
     isLoading := isLoading s; isFetchingLatest := isFetchingLatest s;
     error := error s; installProgress := installProgress s;
     showUninstallDialog := showUninstallDialog s;
     downloadMode := downloadMode s; localStorage := localStorage s |}.

Definition set_isLoading (v : bool) (s : State) : State :=
  {| installedVersion := installedVersion s;
     latestVersion := latestVersion s;
     latestVersionString := latestVersionString s;
     installPath := installPath s; isInitialLoading := isInitialLoading s;
     isLoading := v; isFetchingLatest := isFetchingLatest s;
     error := error s; installProgress := installProgress s;
     showUninstallDialog := showUninstallDialog s;
     downloadMode := downloadMode s; localStorage := localStorage s |}.

Definition set_isFetchingLatest (v : bool) (s : State) : State :=
  {| installedVersion := installedVersion s;
     latestVersion := latestVersion s;
     latestVersionString := latestVersionString s;
     installPath := installPath s; isInitialLoading := isInitialLoading s;
     isLoading := isLoading s; isFetchingLatest := v;
     error := error s; installProgress := installProgress s;
     showUninstallDialog := showUninstallDialog s;
     downloadMode := downloadMode s; localStorage := localStorage s |}.

Definition set_error (v : option UiError) (s : State) : State :=
  {| installedVersion := installedVersion s;
     latestVersion := latestVersion s;
     latestVersionString := latestVersionString s;
     installPath := installPath s; isInitialLoading := isInitialLoading s;
     isLoading := isLoading s; isFetchingLatest := isFetchingLatest s;
     error := v; installProgress := installProgress s;
     showUninstallDialog := showUninstallDialog s;
     downloadMode := downloadMode s; localStorage := localStorage s |}.

Definition set_installProgress (v : option InstallProgress) (s : State)
  : State :=
  {| installedVersion := installedVersion s;
     latestVersion := latestVersion s;
     latestVersionString := latestVersionString s;
     installPath := installPath s; isInitialLoading := isInitialLoading s;
     isLoading := isLoading s; isFetchingLatest := isFetchingLatest s;
     error := error s; installProgress := v;
     showUninstallDialog := showUninstallDialog s;
     downloadMode := downloadMode s; localStorage := localStorage s |}.

Definition set_showUninstallDialog (v : bool) (s : State) : State :=
  {| installedVersion := installedVersion s;
     latestVersion := latestVersion s;
     latestVersionString := latestVersionString s;
     installPath := installPath s; isInitialLoading := isInitialLoading s;
     isLoading := isLoading s; isFetchingLatest := isFetchingLatest s;
     error := error s; installProgress := installProgress s;
     showUninstallDialog := v;
     downloadMode := downloadMode s; localStorage := localStorage s |}.

Definition set_isInitialLoading (v : bool) (s : State) : State :=
  {| installedVersion := installedVersion s;
     latestVersion := latestVersion s;
     latestVersionString := latestVersionString s;
     installPath := installPath s; isInitialLoading := v;
     isLoading := isLoading s; isFetchingLatest := isFetchingLatest s;
     error := error s; installProgress := installProgress s;
     showUninstallDialog := showUninstallDialog s;
     downloadMode := downloadMode s; localStorage := localStorage s |}.

(** [function setDownloadMode(mode)]: the variable and the local-storage
    entry of the same name are both written. *)
Definition setDownloadMode (mode : DownloadMode) (s : State) : State :=
  {| installedVersion := installedVersion s;
     latestVersion := latestVersion s;
     latestVersionString := latestVersionString s;
     installPath := installPath s; isInitialLoading := isInitialLoading s;
     isLoading := isLoading s; isFetchingLatest := isFetchingLatest s;
     error := error s; installProgress := installProgress s;
     showUninstallDialog := showUninstallDialog s;
     downloadMode := mode_string mode;
     localStorage := <["downloadMode" := mode_string mode]> (localStorage s) |}.

(** *** Derived state *)

Definition isInstalled (s : State) : bool :=
  bool_decide (installedVersion s <> None).

Definition status_running (p : InstallProgress) : bool :=
  match status p with
  | Started | InProgress => true
  | _ => false
  end.

Definition isInstalling (s : State) : bool :=
  match installProgress s with
  | Some p => status_running p
  | None => false
  end.

(** [installedVersion!.version !== latestVersionString]: strict inequality
    of two strings. *)
Definition hasUpdate (s : State) : bool :=
  match installedVersion s, latestVersionString s with
  | Some installed, Some latest => negb (String.eqb (version installed) latest)
  | _, _ => false
  end.

Definition isUpToDate (s : State) : bool :=
  match installedVersion s, latestVersionString s with
  | Some installed, Some latest => String.eqb (version installed) latest
  | _, _ => false
  end.

(** The status banner: [{#if isUpToDate} .. {:else if hasUpdate} ..
    {:else if !isInstalled} ..], inside the [{:else}] branch of
    [{#if isInitialLoading}]: while the page loads for the first time only
    placeholders are shown. *)
Inductive Banner : Type :=
| BannerUpToDate | BannerUpdateAvailable | BannerNotInstalled.

Definition banner (s : State) : option Banner :=
  if isInitialLoading s then None
  else if isUpToDate s then Some BannerUpToDate
  else if hasUpdate s then Some BannerUpdateAvailable
  else if negb (isInstalled s) then Some BannerNotInstalled
  else None.

(** The error alert at the top of the page. *)
Definition error_alert (s : State) : option Alert :=
  match error s with
  | None => None
  | Some e =>
      Some (if String.eqb (kind e) "conflict"
            then {| variant := VariantDefault; title := "경고";
                    description := message e |}
            else {| variant := VariantDestructive; title := "오류";
                    description := message e |})
  end.

(** *** Handlers *)

Section Handlers.
Context {B : Type} `{Commands B}.

Local Abbreviation W := (World State B).

Definition unknown_error (prefix : string) (e : Js.Value) : UiError :=
  {| kind := "unknown"; message := Some (prefix +:+ Js.to_string e) |}.

Definition handleError (errorKind : ErrorKind) (context : string)
  : M W unit :=
  if String.eqb (Bindings.kind errorKind) "cancelled" then ret tt
  else
    (update (set_error (Some {| kind := Bindings.kind errorKind;
                                message := Bindings.message errorKind |})) ;;;
     toast ToastError context (Bindings.message errorKind))%js.

Definition fetchInstallPath : M W unit :=
  (result <- invoke CmdGetInstallPath getInstallPath ;;
   match result with
   | Ok data => update (set_installPath (Some data))
   | Error _ => ret tt
   end)%js.

Definition checkInstalledVersion : M W unit :=
  (update (set_isLoading true) ;;;
   update (set_error None) ;;;
   try_finally
     (try_catch
        (result <- invoke CmdInstalledPobInfo installedPobInfo ;;
         match result with
         | Ok data => update (set_installedVersion data)
         | Error e => handleError e "설치된 버전 확인 실패"
         end)
        (fun e => update (set_error (Some (unknown_error "오류: " e)))))
     (update (set_isLoading false)))%js.

Definition checkLatestVersion (refresh : bool) : M W unit :=
  (update (set_isFetchingLatest true) ;;;
   update (set_error None) ;;;
   try_finally
     (try_catch
        (result <- invoke (CmdFetchPob refresh) (fetchPob refresh) ;;
         match result with
         | Ok data =>
             update (set_latestVersion (Some data)) ;;;
             parseResult <-
               invoke (CmdParseVersion (name data)) (parseVersion (name data)) ;;
             match parseResult with
             | Ok token => update (set_latestVersionString (Some token))
             | Error _ => ret tt
             end ;;;
             when refresh
               (toast ToastSuccess "새로고침 완료"
                  (Some "최신 버전 정보를 가져왔습니다."))
         | Error e => handleError e "최신 버전 확인 실패"
         end)
        (fun e => update (set_error (Some (unknown_error "오류: " e)))))
     (update (set_isFetchingLatest false)))%js.

Definition install : M W unit :=
  (s <- read ;;
   match latestVersion s with
   | None =>
       update (set_error
         (Some {| kind := "domain";
                  message := Some "먼저 최신 버전을 확인해주세요." |}))
   | Some latest =>
       update (set_isLoading true) ;;;
       update (set_error None) ;;;
       update (set_installProgress None) ;;;
       try_finally
         (try_catch
            (result <-
               invoke (CmdInstallPob latest (Some (downloadMode s)))
                      (installPob latest (Some (downloadMode s))) ;;
             match result with
             | Error e =>
                 handleError e "설치 실패" ;;;
                 update (set_installProgress None)
             | Ok _ => ret tt
             end)
            (fun e =>
               update (set_error (Some (unknown_error "오류: " e))) ;;;
               update (set_installProgress None)))
         (update (set_isLoading false))
   end)%js.

Definition cancelInstall : M W unit :=
  try_catch
    (_ <- invoke CmdCancelInstallPob cancelInstallPob ;; ret tt)%js
    (fun e => update (set_error (Some (unknown_error "취소 실패: " e)))).

Definition uninstall : M W unit :=
  (update (set_showUninstallDialog false) ;;;
   update (set_isLoading true) ;;;
   update (set_error None) ;;;
   try_finally
     (try_catch
        (result <- invoke CmdUninstallPob uninstallPob ;;
         match result with
         | Error e => handleError e "제거 실패"
         | Ok _ =>
             checkInstalledVersion ;;;
             toast ToastSuccess "제거 완료"
               (Some "Path of Building이 제거되었습니다.")
         end)
        (fun e => update (set_error (Some (unknown_error "오류: " e)))))
     (update (set_isLoading false)))%js.

Definition execute : M W unit :=
  (result <- invoke CmdExecutePob executePob ;;
   match result with
   | Error e => handleError e "실행 실패"
   | Ok _ =>
       toast ToastSuccess "실행" (Some "Path of Building을 시작합니다.")
   end)%js.

(** The listener of the [installProgress] event. *)
Definition onInstallProgress (payload : InstallProgress) : M W unit :=
  (update (set_installProgress (Some payload)) ;;;
   match status payload with
   | Completed =>
       toast ToastSuccess "설치 완료"
         (Some "Path of Building이 성공적으로 설치되었습니다.") ;;;
       setTimeout CheckInstalledVersion 500
   | Failed =>
       toast ToastError "설치 실패" (Some "설치 중 오류가 발생했습니다.") ;;;
       setTimeout CheckInstalledVersion 500
   | StatusCancelled =>
       toast ToastInfo "설치 취소" (Some "사용자에 의해 취소되었습니다.") ;;;
       setTimeout CheckInstalledVersion 500
   | _ => ret tt
   end)%js.
End Handlers.

(** *** What the page offers *)

Definition getPhaseText (phase : string) : string :=
  if String.eqb phase "downloading" then "다운로드 중"
  else if String.eqb phase "extracting" then "압축 해제 중"
  else if String.eqb phase "backingUp" then "백업 중"
  else if String.eqb phase "moving" then "이동 중"
  else if String.eqb phase "restoring" then "복구 중"
  else if String.eqb phase "finalizing" then "마무리 중"
  else if String.eqb phase "uninstalling" then "제거 중"
  else phase.

Inductive Button : Type :=
| BtnInstall | BtnUpdate | BtnRun | BtnUninstall | BtnCancel.

(** The buttons of the card footer, each with its [disabled] flag; while
    the page loads for the first time only placeholders are shown. *)
Definition footer (s : State) : list (Button * bool) :=
  let no_install :=
    isLoading s || bool_decide (latestVersion s = None) || isInstalling s in
  let busy := isLoading s || isInstalling s in
  if isInitialLoading s then []
  else if negb (isInstalled s) then [(BtnInstall, no_install)]
  else if hasUpdate s then
    [(BtnUpdate, no_install); (BtnRun, busy); (BtnUninstall, busy)]
  else [(BtnRun, busy); (BtnUninstall, busy)].

(** The progress card with its cancel button: [{#if isInstalling}]. *)
Definition progress_card (s : State) : list (Button * bool) :=
  if isInitialLoading s then []
  else if isInstalling s then [(BtnCancel, false)]
  else [].

(** *** Everything a user or the back end can set off on the page

    [ActMounted] is the end of [onMount], once the three initial checks
    have settled: [isInitialLoading = false]. *)

Inductive Action : Type :=
| ActFetchInstallPath
| ActCheckInstalledVersion
| ActCheckLatestVersion (refresh : bool)
| ActInstall
| ActCancelInstall
| ActUninstall
| ActExecute
| ActInstallProgress (payload : InstallProgress)
| ActSetDownloadMode (mode : DownloadMode)
| ActAskUninstall
| ActMounted.

Section Actions.
Context {B : Type} `{Commands B}.

Definition act (a : Action) : M (World State B) unit :=
  match a with
  | ActFetchInstallPath => fetchInstallPath
  | ActCheckInstalledVersion => checkInstalledVersion
  | ActCheckLatestVersion refresh => checkLatestVersion refresh
  | ActInstall => install
  | ActCancelInstall => cancelInstall
  | ActUninstall => uninstall
  | ActExecute => execute
  | ActInstallProgress payload => onInstallProgress payload
  | ActSetDownloadMode mode => update (setDownloadMode mode)
  | ActAskUninstall => update (set_showUninstallDialog true)
  | ActMounted => update (set_isInitialLoading false)
  end.

(** One action after the other, each run to its end whether it returns
    or throws. *)
Fixpoint run (acts : list Action) (w : World State B) : World State B :=
  match acts with
  | [] => w
  | a :: rest => run rest (fst (act a w))
  end.
End Actions.

(** Between two actions the page is at rest: neither busy flag is up; and a
    latest token is only ever known together with its artifact. *)
Definition at_rest (s : State) : Prop :=
  isLoading s = false /\ isFetchingLatest s = false /\
  (latestVersionString s <> None -> latestVersion s <> None).

End Page.


(** ** The redesigned page, [src/unnamed/part_001] *)

Module Part001.

Record State : Type := {
  showUninstallDialog : bool;
  installedVersion : option PobVersion;
  latestVersion : option GoogleDriveFileInfo;
  latestVersionString : option string;
  installPath : option string;
  isInitialLoading : bool;
  isFetchingLatest : bool;
  installProgress : option InstallProgress;
  error : option UiError
}.

Definition initial : State :=
  {| showUninstallDialog := false; installedVersion := None;
     latestVersion := None; latestVersionString := None;
     installPath := None; isInitialLoading := true;
     isFetchingLatest := false; installProgress := None; error := None |}.

Definition set_showUninstallDialog (v : bool) (s : State) : State :=
  {| showUninstallDialog := v; installedVersion := installedVersion s;
     latestVersion := latestVersion s;
     latestVersionString := latestVersionString s;
     installPath := installPath s; isInitialLoading := isInitialLoading s;
     isFetchingLatest := isFetchingLatest s;
     installProgress := installProgress s; error := error s |}.

Definition set_installedVersion (v : option PobVersion) (s : State) : State :=
  {| showUninstallDialog := showUninstallDialog s; installedVersion := v;
     latestVersion := latestVersion s;
     latestVersionString := latestVersionString s;
     installPath := installPath s; isInitialLoading := isInitialLoading s;
     isFetchingLatest := isFetchingLatest s;
     installProgress := installProgress s; error := error s |}.

Definition set_installProgress (v : option InstallProgress) (s : State)
  : State :=
  {| showUninstallDialog := showUninstallDialog s;
     installedVersion := installedVersion s;
     latestVersion := latestVersion s;
     latestVersionString := latestVersionString s;
     installPath := installPath s; isInitialLoading := isInitialLoading s;
     isFetchingLatest := isFetchingLatest s;
     installProgress := v; error := error s |}.

Definition set_error (v : option UiError) (s : State) : State :=
  {| showUninstallDialog := showUninstallDialog s;
     installedVersion := installedVersion s;
     latestVersion := latestVersion s;
     latestVersionString := latestVersionString s;
     installPath := installPath s; isInitialLoading := isInitialLoading s;
     isFetchingLatest := isFetchingLatest s;
     installProgress := installProgress s; error := v |}.

(** *** Derived state *)

Definition isInstalled (s : State) : bool :=
  bool_decide (installedVersion s <> None).

Definition isInstalling (s : State) : bool :=
  match installProgress s with
  | Some p => Page.status_running p
  | None => false
  end.

Inductive AppStatus : Type :=
| Idle | UpdateAvailable | Updating | NotInstalled.

(** A string used as a condition: [null] and the empty string are false. *)
Definition truthy (v : option string) : bool :=
  match v with
  | Some t => negb (String.eqb t "")
  | None => false
  end.

(** [a !== b] for a string [a] and a string or [null] [b]. *)
Definition strict_neq (a : string) (b : option string) : bool :=
  match b with
  | Some t => negb (String.eqb a t)
  | None => true
  end.

Definition appStatus (s : State) : AppStatus :=
  match installedVersion s with
  | None => NotInstalled
  | Some installed =>
      if isInstalling s then Updating
      else if truthy (latestVersionString s)
              && strict_neq (version installed) (latestVersionString s)
      then UpdateAvailable
      else Idle
  end.

(** The texts of [STATUS_CONFIGS]. *)
Definition status_text (a : AppStatus) : string :=
  match a with
  | Idle => "최신 버전"
  | UpdateAvailable => "업데이트 가능"
  | Updating => "업데이트 중..."
  | NotInstalled => "미설치"
  end.

(** The error banner: [{#if error && error.kind !== 'cancelled'}], always
    with the destructive variant. *)
Definition error_banner (s : State) : option Alert :=
  match error s with
  | None => None
  | Some e =>
      if String.eqb (kind e) "cancelled" then None
      else
        Some {| variant := VariantDestructive; title := "오류 발생";
                description :=
                  Some (if truthy (message e) then default "" (message e)
                        else "알 수 없는 오류가 발생했습니다.") |}
  end.

(** *** Handlers *)

Section Handlers.
Context {B : Type} `{Commands B}.

Local Abbreviation W := (World State B).

Definition handleError (errorKind : ErrorKind) (context : string)
  : M W unit :=
  if String.eqb (Bindings.kind errorKind) "cancelled" then ret tt
  else
    (update (set_error (Some {| kind := Bindings.kind errorKind;
                                message := Bindings.message errorKind |})) ;;;
     toast ToastError context (Bindings.message errorKind))%js.

Definition checkInstalledVersion : M W unit :=
  (update (set_error None) ;;;
   try_catch
     (result <- invoke CmdInstalledPobInfo installedPobInfo ;;
      match result with
      | Ok data => update (set_installedVersion data)
      | Error e => handleError e "설치된 버전 확인 실패"
      end)
     (fun e => update (set_error (Some (Page.unknown_error "오류: " e)))))%js.

(** [commands.installPob(latestVersion)]: this page passes no mode. *)
Definition install : M W unit :=
  (s <- read ;;
   match latestVersion s with
   | None =>
       update (set_error
         (Some {| kind := "domain";
                  message := Some "먼저 최신 버전을 확인해주세요." |}))
   | Some latest =>
       update (set_error None) ;;;
       update (set_installProgress None) ;;;
       try_catch
         (result <-
            invoke (CmdInstallPob latest None) (installPob latest None) ;;
          match result with
          | Error e =>
              handleError e "설치 실패" ;;;
              update (set_installProgress None)
          | Ok _ => ret tt
          end)
         (fun e =>
            update (set_error (Some (Page.unknown_error "오류: " e))) ;;;
            update (set_installProgress None))
   end)%js.

Definition uninstall : M W unit :=
  (update (set_showUninstallDialog false) ;;;
   update (set_error None) ;;;
   try_catch
     (result <- invoke CmdUninstallPob uninstallPob ;;
      match result with
      | Error e => handleError e "제거 실패"
      | Ok _ =>
          checkInstalledVersion ;;;
          toast ToastSuccess "제거 완료"
            (Some "Path of Building이 제거되었습니다.")
      end)
     (fun e => update (set_error (Some (Page.unknown_error "오류: " e)))))%js.

(** The [$effect] that watches [installProgress]. *)
Definition progress_effect : M W unit :=
  (s <- read ;;
   match installProgress s with
   | None => ret tt
   | Some p =>
       match status p with
       | Completed =>
           toast ToastSuccess "설치 완료"
             (Some "Path of Building이 성공적으로 설치되었습니다.") ;;;
           setTimeout CheckInstalledVersion 500
       | Failed =>
           toast ToastError "설치 실패"
             (Some "설치 중 오류가 발생했습니다.") ;;;
           setTimeout CheckInstalledVersion 500
       | StatusCancelled =>
           toast ToastInfo "설치 취소"
             (Some "사용자에 의해 취소되었습니다.") ;;;
           setTimeout CheckInstalledVersion 500
       | _ => ret tt
       end
   end)%js.
End Handlers.

(** *** What the page offers *)

(** The own entries of the object literal [PHASE_TEXT]. *)
Definition PHASE_TEXT : gmap string string :=
  list_to_map
    [("preparing", "준비 중"); ("downloading", "다운로드 중");
     ("extracting", "압축 해제 중"); ("backingUp", "백업 중");
     ("moving", "이동 중"); ("restoring", "복구 중");
     ("finalizing", "마무리 중"); ("uninstalling", "제거 중")].

(** [PHASE_TEXT[phase] ?? phase]: a property read on an object literal,
    which also finds what the object inherits. *)
Definition getPhaseText (phase : string) : Js.Member :=
  Js.nullish_or (Js.member PHASE_TEXT phase) phase.

(** The value of the progress bar. *)
Definition progress (s : State) : nat :=
  match installProgress s with
  | Some p =>
      match status p with
      | InProgress => percent p
      | Completed => 100
      | _ => 0
      end
  | None => 0
  end.

(** The primary actions of the hero card, each with its [disabled] flag;
    while the page loads for the first time only placeholders are shown. *)
Definition primary_actions (s : State) : list (Page.Button * bool) :=
  if isInitialLoading s then []
  else
    match appStatus s with
    | Updating => [(Page.BtnCancel, false)]
    | UpdateAvailable =>
        [(Page.BtnUpdate, bool_decide (latestVersion s = None));
         (Page.BtnRun, negb (isInstalled s))]
    | NotInstalled =>
        [(Page.BtnInstall, bool_decide (latestVersion s = None))]
    | Idle => [(Page.BtnRun, negb (isInstalled s))]
    end.

(** The progress bar area: [{#if appStatus === "updating"}]. *)
Definition progress_bar (s : State) : option (Js.Member * nat) :=
  if isInitialLoading s then None
  else
    match appStatus s with
    | Updating =>
        Some (match installProgress s with
              | Some p => getPhaseText (phase_string (phase p))
              | None => Js.Str "다운로드 중..."
              end, progress s)
    | _ => None
    end.

End Part001.


(** ** The version resolver *)

Module Version.

Definition is_digit (c : ascii) : bool :=
  ((48 <=? nat_of_ascii c) && (nat_of_ascii c <=? 57))%nat.

Definition is_dot (c : ascii) : bool := Ascii.eqb c ".".

(** Where a scan stands inside a candidate token: in its first number,
    just behind a dot (a digit must follow), or in a number behind a dot
    (what was read so far is a complete token). *)
Inductive Scan : Type := InFirst | AfterDot | InGroup.

(** [accepts st s]: from [st], the whole of [s] completes a token. *)
Fixpoint accepts (st : Scan) (s : string) : bool :=
  match s with
  | EmptyString => match st with InGroup => true | _ => false end
  | String c rest =>
      match st with
      | InFirst =>
          if is_digit c then accepts InFirst rest
          else if is_dot c then accepts AfterDot rest
          else false
      | AfterDot => if is_digit c then accepts InGroup rest else false
      | InGroup =>
          if is_digit c then accepts InGroup rest
          else if is_dot c then accepts AfterDot rest
          else false
      end
  end.

(** Modelled from the spec: [src-tauri/src/pob/version.rs] is not part of
    the sources.  A version token is a dot-separated numeric run: two or
    more non-empty runs of decimal digits with one dot between neighbours
    ([2.40.1]). *)
Definition is_version_token (s : string) : bool :=
  match s with
  | String c rest => is_digit c && accepts InFirst rest
  | EmptyString => false
  end.

(** [longest st s]: the length of the longest prefix of [s] that completes
    a token from [st], if there is one. *)
Fixpoint longest (st : Scan) (s : string) : option nat :=
  match s with
  | EmptyString => match st with InGroup => Some 0 | _ => None end
  | String c rest =>
      match st with
      | InFirst =>
          if is_digit c then S <$> longest InFirst rest
          else if is_dot c then S <$> longest AfterDot rest
          else None
      | AfterDot => if is_digit c then S <$> longest InGroup rest else None
      | InGroup =>
          if is_digit c then S <$> longest InGroup rest
          else if is_dot c then
            match longest AfterDot rest with
            | Some n => Some (S n)
            | None => Some 0
            end
          else Some 0
      end
  end.

(** The longest token that starts at the head of [s]. *)
Definition match_here (s : string) : option nat :=
  match s with
  | String c rest => if is_digit c then S <$> longest InFirst rest else None
  | EmptyString => None
  end.

(** The first position of [s] where a token starts, with the longest
    token there. *)
Fixpoint find_version (s : string) : option string :=
  match match_here s with
  | Some n => Some (substring 0 n s)
  | None =>
      match s with
      | String _ rest => find_version rest
      | EmptyString => None
      end
  end.

(** Modelled from the spec: [extractVersionToken] of section 6 (the
    [parseVersion] command), whose Rust source is not part of the sources:
    the first dot-separated numeric run of the name, or a [NotFound]
    error. *)
Definition extractVersionToken (name : string) : Result string :=
  match find_version name with
  | Some token => Ok token
  | None => Error (NotFound ("no version in " +:+ name))
  end.

(** [name] holds [token] behind exactly [pos] characters. *)
Definition occurs_at (name : string) (pos : nat) (token : string) : Prop :=
  exists before after,
    name = before +:+ token +:+ after /\ String.length before = pos.

(** The shape of a token in words: a number, then one or more groups of a
    dot and a number. *)
Fixpoint all_digits (s : string) : bool :=
  match s with
  | EmptyString => true
  | String c rest => is_digit c && all_digits rest
  end.

Definition number (s : string) : Prop := s <> "" /\ all_digits s = true.

Fixpoint dotted (parts : list string) : string :=
  match parts with
  | [] => ""
  | p :: rest => "." +:+ p +:+ dotted rest
  end.

(** A name follows the naming convention around a token when nothing in
    front of the token holds a digit and what follows does not go on with
    a digit, or with a dot and a digit. *)
Fixpoint no_digit (s : string) : bool :=
  match s with
  | EmptyString => true
  | String c rest => negb (is_digit c) && no_digit rest
  end.

Definition continues (s : string) : bool :=
  match s with
  | EmptyString => false
  | String c rest =>
      is_digit c
      || (is_dot c
          && match rest with
             | String d _ => is_digit d
             | EmptyString => false
             end)
  end.

End Version.

Import Version.

(** ** The install pipeline and the install record store *)

Module Backend.

(** Modelled from the spec: a directory (install root, staging, backup) as
    the bytes of each file under its relative path. *)
Abbreviation Contents := (gmap string string).

(** Modelled from the spec: a published archive: its size, and what
    unpacking yields ([None] for a corrupt or unsupported archive). *)
Record Archive : Type := {
  size : nat;
  payload : option Contents
}.

(** Modelled from the spec: what the download engine's two strategies can
    report (section 4.3), and its class in the taxonomy of section 7. *)
Inductive TransferError : Type :=
| Transport (reason : string)
| LocalIo (reason : string).

Definition classify (e : TransferError) : ErrorKind :=
  match e with
  | Transport r => Network r
  | LocalIo r => Io r
  end.

(** Modelled from the spec: what goes wrong during a run; the environment
    decides, not the pipeline.  A move that fails leaves the directory it
    was filling in some half-done state, given with the failure. *)
Record Faults : Type := {
  cancel_during : option Phase;
  parallel_error : option TransferError;
  single_error : option TransferError;
  backup_error : option string;
  move_error : option (string * option Contents);
  restore_error : option (string * option Contents);
  uninstall_error : option string
}.

Definition no_faults : Faults :=
  {| cancel_during := None; parallel_error := None; single_error := None;
     backup_error := None; move_error := None; restore_error := None;
     uninstall_error := None |}.

(** Modelled from the spec: the Rust back end ([src-tauri]) is not part of
    the sources.  The state holds what sections 3 to 5 name: the install
    root, the pipeline-private backup, the install record, the run guard
    and the progress event bus; and the environment of a run: the remote
    host, what the conflict guard sees, the clock and the faults. *)
Record State : Type := {
  remote : gmap string Archive;
  published : option GoogleDriveFileInfo;
  install_path : string;
  install_root : option Contents;
  backup : option Contents;
  record : option PobVersion;
  running : bool;
  target_running : bool;
  clock : string;
  faults : Faults;
  bus : list InstallProgress
}.

Definition set_install_root (v : option Contents) (s : State) : State :=
  {| remote := remote s; published := published s;
     install_path := install_path s; install_root := v; backup := backup s;
     record := record s; running := running s;
     target_running := target_running s; clock := clock s;
     faults := faults s; bus := bus s |}.

Definition set_backup (v : option Contents) (s : State) : State :=
  {| remote := remote s; published := published s;
     install_path := install_path s; install_root := install_root s;
     backup := v; record := record s; running := running s;
     target_running := target_running s; clock := clock s;
     faults := faults s; bus := bus s |}.

Definition set_record (v : option PobVersion) (s : State) : State :=
  {| remote := remote s; published := published s;
     install_path := install_path s; install_root := install_root s;
     backup := backup s; record := v; running := running s;
     target_running := target_running s; clock := clock s;
     faults := faults s; bus := bus s |}.

Definition set_running (v : bool) (s : State) : State :=
  {| remote := remote s; published := published s;
     install_path := install_path s; install_root := install_root s;
     backup := backup s; record := record s; running := v;
     target_running := target_running s; clock := clock s;
     faults := faults s; bus := bus s |}.

Definition set_target_running (v : bool) (s : State) : State :=
  {| remote := remote s; published := published s;
     install_path := install_path s; install_root := install_root s;
     backup := backup s; record := record s; running := running s;
     target_running := v; clock := clock s;
     faults := faults s; bus := bus s |}.

Definition push (e : InstallProgress) (s : State) : State :=
  {| remote := remote s; published := published s;
     install_path := install_path s; install_root := install_root s;
     backup := backup s; record := record s; running := running s;
     target_running := target_running s; clock := clock s;
     faults := faults s; bus := bus s ++ [e] |}.

(** *** Steps of a run: each changes the state and succeeds or reports a
    classified error *)

Definition Run (A : Type) : Type := State -> State * Result A.

Definition emit (p : Phase) (st : Status) (pct : nat) (total : option nat)
    (why : option string) (s : State) : State :=
  push {| phase := p; status := st; percent := pct;
          totalSize := total; reason := why |} s.

Definition cancelled_in (p : Phase) (s : State) : bool :=
  bool_decide (cancel_during (faults s) = Some p).

(** Modelled from the spec: one strategy of the download engine. *)
Definition fetch (failure : option TransferError) (ref : GoogleDriveFileInfo)
  : Run Archive :=
  fun s =>
    match failure with
    | Some e => (s, Error (classify e))
    | None =>
        match remote s !! id ref with
        | Some a => (s, Ok a)
        | None => (s, Error (Network "artifact not available"))
        end
    end.

(** Modelled from the spec: section 4.3.  [single] and [parallel] are the
    two strategies; [auto] tries [parallel] and falls back to [single]; a
    cancellation seen by the engine ends the download as [Cancelled]. *)
Definition download (ref : GoogleDriveFileInfo) (mode : DownloadMode)
  : Run Archive :=
  fun s =>
    if cancelled_in Downloading s then (s, Error Cancelled)
    else
      match mode with
      | Single => fetch (single_error (faults s)) ref s
      | Parallel => fetch (parallel_error (faults s)) ref s
      | Auto =>
          match fetch (parallel_error (faults s)) ref s with
          | (s', Ok a) => (s', Ok a)
          | (s', Error _) => fetch (single_error (faults s)) ref s'
          end
      end.

(** Modelled from the spec: section 4.5, step 2. *)
Definition downloading (ref : GoogleDriveFileInfo) (mode : DownloadMode)
  : Run Archive :=
  fun s =>
    let s1 :=
      emit Downloading Started 0 (size <$> remote s !! id ref) None s in
    match download ref mode s1 with
    | (s2, Ok a) =>
        (emit Downloading InProgress 100 (Some (size a)) None s2, Ok a)
    | (s2, Error e) => (s2, Error e)
    end.

(** Modelled from the spec: section 4.5, step 3; a cancellation is still
    honoured here. *)
Definition extracting (a : Archive) : Run Contents :=
  fun s =>
    let s1 := emit Extracting Started 0 None None s in
    if cancelled_in Extracting s1 then (s1, Error Cancelled)
    else
      match payload a with
      | Some staged => (s1, Ok staged)
      | None => (s1, Error (Domain "corrupt or unsupported archive"))
      end.

(** Modelled from the spec: section 4.5, step 4.  An existing install is
    moved aside; the answer says whether a backup was made.  Without an
    existing install the step is skipped. *)
Definition backingUp : Run bool :=
  fun s =>
    match install_root s with
    | None => (s, Ok false)
    | Some old =>
        let s1 := emit BackingUp Started 0 None None s in
        match backup_error (faults s1) with
        | Some why => (s1, Error (Io why))
        | None => (set_backup (Some old) (set_install_root None s1), Ok true)
        end
    end.

(** Modelled from the spec: section 4.5, step 5. *)
Definition moving (staged : Contents) : Run unit :=
  fun s =>
    let s1 := emit Moving Started 0 None None s in
    match move_error (faults s1) with
    | Some (why, debris) => (set_install_root debris s1, Error (Io why))
    | None => (set_install_root (Some staged) s1, Ok tt)
    end.

(** Modelled from the spec: section 4.5, step 6.  The backup is moved back
    into the install root. *)
Definition restoring : Run unit :=
  fun s =>
    let s1 := emit Restoring Started 0 None None s in
    match restore_error (faults s1) with
    | Some (why, debris) => (set_install_root debris s1, Error (Io why))
    | None => (set_backup None (set_install_root (backup s1) s1), Ok tt)
    end.

(** Modelled from the spec: section 4.5, step 7. *)
Definition finalizing (token : string) (ref : GoogleDriveFileInfo)
  : Run unit :=
  fun s =>
    let s1 := emit Finalizing Started 0 None None s in
    (set_record
       (Some {| version := token; fileId := id ref; installedAt := clock s1 |})
       (set_backup None s1),
     Ok tt).

(** Modelled from the spec: steps 2 to 7 of section 4.5 in order, with the
    phase the run ends in.  A failure of the move behind a completed
    backup enters [restoring]; the error of the move is the one reported,
    unless the restore fails too. *)
Definition run_phases (ref : GoogleDriveFileInfo) (mode : DownloadMode)
    (token : string) (s : State) : State * Phase * Result unit :=
  match downloading ref mode s with
  | (s1, Error e) => (s1, Downloading, Error e)
  | (s1, Ok archive) =>
  match extracting archive s1 with
  | (s2, Error e) => (s2, Extracting, Error e)
  | (s2, Ok staged) =>
  match backingUp s2 with
  | (s3, Error e) => (s3, BackingUp, Error e)
  | (s3, Ok backed_up) =>
  match moving staged s3 with
  | (s4, Error e) =>
      if backed_up then
        match restoring s4 with
        | (s5, Ok _) => (s5, Restoring, Error e)
        | (s5, Error e') => (s5, Restoring, Error e')
        end
      else (s4, Moving, Error e)
  | (s4, Ok _) =>
      let '(s5, r) := finalizing token ref s4 in (s5, Finalizing, r)
  end end end end.

(** Modelled from the spec: section 4.5, step 8, the terminal event of a
    run. *)
Definition terminal (p : Phase) (r : Result unit) (s : State) : State :=
  match r with
  | Ok _ => emit p Completed 100 None None s
  | Error Cancelled => emit p StatusCancelled 0 None None s
  | Error e => emit p Failed 0 None (Bindings.message e) s
  end.

(** Modelled from the spec: [install] of sections 4.5 and 6.  The run
    guard and the conflict guard come first.  The record of step 7 needs
    the version token of the artifact; the specification does not say
    where it is resolved, and here a name without a token ends the call
    before the first phase. *)
Definition install (ref : GoogleDriveFileInfo) (mode : DownloadMode)
  : Run unit :=
  fun s =>
    if running s then (s, Error (Conflict "operation already in progress"))
    else if target_running s then (s, Error (Conflict "target is running"))
    else
      match extractVersionToken (name ref) with
      | Error e => (s, Error e)
      | Ok token =>
          let '(s1, p, r) := run_phases ref mode token (set_running true s) in
          (set_running false (terminal p r s1), r)
      end.

(** Modelled from the spec: [uninstall] of sections 4.5 and 6. *)
Definition uninstall : Run unit :=
  fun s =>
    if running s then (s, Error (Conflict "operation already in progress"))
    else if target_running s then (s, Error (Conflict "target is running"))
    else
      let s1 := emit Uninstalling Started 0 None None (set_running true s) in
      match uninstall_error (faults s1) with
      | Some why =>
          (set_running false (terminal Uninstalling (Error (Io why)) s1),
           Error (Io why))
      | None =>
          (set_running false
             (terminal Uninstalling (Ok tt)
                (set_record None (set_install_root None s1))),
           Ok tt)
      end.

(** Modelled from the spec: [installedVersion] of section 6, the read side
    of the install record store. *)
Definition installedVersion (s : State) : option PobVersion := record s.

(** The last event on the bus. *)
Definition last_event (s : State) : option InstallProgress := last (bus s).

(** A state before any run: nothing installed, no record, no event. *)
Definition fresh (host : gmap string Archive)
    (latest : option GoogleDriveFileInfo) (path now : string) (f : Faults)
  : State :=
  {| remote := host; published := latest; install_path := path;
     install_root := None; backup := None; record := None;
     running := false; target_running := false; clock := now;
     faults := f; bus := [] |}.

(** The events a run has put on the bus since state [s]. *)
Definition events_since (s s' : State) : list InstallProgress :=
  drop (length (bus s)) (bus s').

Definition pushes (evs : list InstallProgress) (s : State) : State :=
  {| remote := remote s; published := published s;
     install_path := install_path s; install_root := install_root s;
     backup := backup s; record := record s; running := running s;
     target_running := target_running s; clock := clock s;
     faults := faults s; bus := bus s ++ evs |}.

(** A step that leaves the install record and the clock alone and puts
    no [completed] event on the bus. *)
Definition quiet (s s' : State) : Prop :=
  record s' = record s /\ clock s' = clock s /\
  exists evs,
    bus s' = (bus s ++ evs)%list /\
    Forall (fun ev => status ev <> Completed) evs.

(** What happens to a back end over time: calls of the two operations,
    and changes of its environment in between. *)
Inductive Call : Type :=
| CallInstall (ref : GoogleDriveFileInfo) (mode : DownloadMode)
| CallUninstall
| CallEnv (f : Faults) (busy : bool) (now : string).

Definition set_env (f : Faults) (busy : bool) (now : string) (s : State)
  : State :=
  {| remote := remote s; published := published s;
     install_path := install_path s; install_root := install_root s;
     backup := backup s; record := record s; running := running s;
     target_running := busy; clock := now; faults := f; bus := bus s |}.

Definition call (c : Call) (s : State) : State * option (Result unit) :=
  match c with
  | CallInstall ref mode => let '(s', r) := install ref mode s in (s', Some r)
  | CallUninstall => let '(s', r) := uninstall s in (s', Some r)
  | CallEnv f busy now => (set_env f busy now s, None)
  end.

Fixpoint run (cs : list Call) (s : State) : State :=
  match cs with
  | [] => s
  | c :: rest => run rest (fst (call c s))
  end.

(** No install among the calls [cs], made from [s] on, succeeded. *)
Fixpoint no_install_succeeded (cs : list Call) (s : State) : Prop :=
  match cs with
  | [] => True
  | c :: rest =>
      match c with
      | CallInstall _ _ => snd (call c s) <> Some (Ok tt)
      | _ => True
      end /\ no_install_succeeded rest (fst (call c s))
  end.

(** The mode as it arrives over the bridge; a page that passes none gets
    the default. *)
Definition parse_mode (m : option string) : option DownloadMode :=
  match m with
  | None => Some Auto
  | Some t =>
      if String.eqb t "auto" then Some Auto
      else if String.eqb t "parallel" then Some Parallel
      else if String.eqb t "single" then Some Single
      else None
  end.

(** Modelled from the spec: the commands of section 6 as the pages call
    them; the Rust command layer is not part of the sources. *)
#[global] Instance commands : Commands State := {|
  getInstallPath s := (s, Normal (Ok (install_path s)));
  installedPobInfo s := (s, Normal (Ok (installedVersion s)));
  fetchPob _ s :=
    (s, Normal match published s with
               | Some f => Ok f
               | None => Error (NotFound "no candidate artifact")
               end);
  parseVersion fileName s := (s, Normal (extractVersionToken fileName));
  installPob ref m s :=
    match parse_mode m with
    | Some mode => let '(s', r) := install ref mode s in (s', Normal r)
    | None => (s, Throw (Other "invalid args for command install_pob"))
    end;
  cancelInstallPob s := (s, Normal (Ok tt));
  uninstallPob s := let '(s', r) := uninstall s in (s', Normal r);
  executePob s :=
    if target_running s then (s, Normal (Error (Conflict "target is running")))
    else
      match record s with
      | None => (s, Normal (Error (Conflict "not installed")))
      | Some _ => (set_target_running true s, Normal (Ok tt))
      end
|}.

End Backend.

(** ** Concrete values used in examples *)

Module Samples.

Definition record_2_40_0 : PobVersion :=
  {| version := "2.40.0"; fileId := "file-0";
     installedAt := "2026-01-12T09:00:00Z" |}.

Definition artifact_2_40_1 : GoogleDriveFileInfo :=
  {| id := "file-1"; name := "PathOfBuilding-2.40.1.zip"; isFolder := false |}.

Definition download_started : InstallProgress :=
  {| phase := Downloading; status := Started; percent := 0;
     totalSize := Some 3; reason := None |}.

(** The main route with 2.40.0 installed and 2.40.1 fetched. *)
Definition page_stale : Page.State :=
  Page.set_latestVersionString (Some "2.40.1")
    (Page.set_latestVersion (Some artifact_2_40_1)
       (Page.set_installedVersion (Some record_2_40_0) (Page.initial ∅))).

(** The redesigned page in the same situation, and during a run. *)
Definition part001_stale : Part001.State :=
  {| Part001.showUninstallDialog := false;
     Part001.installedVersion := Some record_2_40_0;
     Part001.latestVersion := Some artifact_2_40_1;
     Part001.latestVersionString := Some "2.40.1";
     Part001.installPath := None; Part001.isInitialLoading := false;
     Part001.isFetchingLatest := false; Part001.installProgress := None;
     Part001.error := None |}.

Definition part001_updating : Part001.State :=
  Part001.set_installProgress (Some download_started) part001_stale.

Definition old_files : Backend.Contents :=
  {["PathOfBuilding.exe" := "build 2.40.0"]}.

Definition new_files : Backend.Contents :=
  {["PathOfBuilding.exe" := "build 2.40.1"]}.

Definition half_moved : Backend.Contents :=
  {["PathOfBuilding.exe" := "bui"]}.

Definition host : gmap string Backend.Archive :=
  {["file-1" := {| Backend.size := 3; Backend.payload := Some new_files |}]}.

(** Nothing installed yet. *)
Definition backend_fresh (f : Backend.Faults) : Backend.State :=
  Backend.fresh host (Some artifact_2_40_1) "C:\\PoB"
    "2026-01-13T10:00:00Z" f.

(** 2.40.0 installed. *)
Definition backend_stale (f : Backend.Faults) : Backend.State :=
  Backend.set_record (Some record_2_40_0)
    (Backend.set_install_root (Some old_files) (backend_fresh f)).

(** The move into the install root fails. *)
Definition move_fails : Backend.Faults :=
  {| Backend.cancel_during := None; Backend.parallel_error := None;
     Backend.single_error := None; Backend.backup_error := None;
     Backend.move_error := Some ("disk full", Some half_moved);
     Backend.restore_error := None; Backend.uninstall_error := None |}.

(** The move fails and then the restore fails as well. *)
Definition move_and_restore_fail : Backend.Faults :=
  {| Backend.cancel_during := None; Backend.parallel_error := None;
     Backend.single_error := None; Backend.backup_error := None;
     Backend.move_error := Some ("disk full", Some half_moved);
     Backend.restore_error := Some ("access denied", Some half_moved);
     Backend.uninstall_error := None |}.

(** The user cancels during the download. *)
Definition cancel_download : Backend.Faults :=
  {| Backend.cancel_during := Some Downloading;
     Backend.parallel_error := None; Backend.single_error := None;
     Backend.backup_error := None; Backend.move_error := None;
     Backend.restore_error := None; Backend.uninstall_error := None |}.

Definition world {P} (p : P) (b : Backend.State) : World P Backend.State :=
  {| page := p; backend := b; trace := [] |}.

End Samples.

(** ** The update dialog, [src/lib/components/update-dialog.svelte] *)

Module UpdateDialog.

(** The bindable [open] property and the updater store the dialog reads. *)
Record State : Type := {
  open : bool;
  session : Updater.Session
}.

Definition on_session {A} (m : M Updater.Session A) : M State A :=
  fun d =>
    let '(w, c) := m (session d) in ({| open := open d; session := w |}, c).

Definition handleLater : M State unit :=
  (modify (fun d => {| open := false; session := session d |}) ;;;
   on_session (Updater.on_state (fun _ => Updater.initial)))%js.

Section HandleInstall.
Variable round_percent : nat -> nat -> nat.
Variable events : list Updater.DownloadEvent.
Variable download relaunch : Completion unit.

Definition handleInstall : M State unit :=
  on_session
    (Updater.downloadAndInstall round_percent events download relaunch).
End HandleInstall.

(** What the description of the dialog shows. *)
Inductive Description : Type :=
| ShowProgress (percent : nat)
| ShowError (text : string)
| ShowNotice.

Definition description (s : Updater.UpdateState) : Description :=
  if Updater.downloading s then ShowProgress (Updater.progress s)
  else
    match Updater.error s with
    | Some text => if String.eqb text "" then ShowNotice else ShowError text
    | None => ShowNotice
    end.

Inductive Button : Type := Later | Install.

(** The footer: [{#if !updateState.downloading}] both buttons. *)
Definition footer (s : Updater.UpdateState) : list Button :=
  if Updater.downloading s then [] else [Later; Install].

End UpdateDialog.

(** ** The settings page, [src/unnamed/part_002] *)

Module SettingsPage.

Record State : Type := {
  installPath : option string;
  appVersion : option string;
  isLoading : bool;
  updateDialogOpen : bool
}.

Definition initial : State :=
  {| installPath := None; appVersion := None; isLoading := true;
     updateDialogOpen := false |}.

(** What the page puts out: toasts and lines on the console. *)
Inductive Output : Type :=
| Shown (level : ToastLevel) (title : string) (description : option string)
| Logged (label : string) (value : Js.Value).

(** The page with the two stores it imports. *)
Record World : Type := {
  page : State;
  settings : Settings.State;
  updater : Updater.UpdateState;
  output : list Output
}.

Definition on_page (f : State -> State) : M World unit :=
  modify (fun w =>
    {| page := f (page w); settings := settings w; updater := updater w;
       output := output w |}).

Definition put (o : Output) : M World unit :=
  modify (fun w =>
    {| page := page w; settings := settings w; updater := updater w;
       output := output w ++ [o] |}).

Definition on_settings {A} (m : M Settings.State A) : M World A :=
  fun w =>
    let '(s, c) := m (settings w) in
    ({| page := page w; settings := s; updater := updater w;
        output := output w |}, c).

Definition on_updater {A} (m : M Updater.UpdateState A) : M World A :=
  fun w =>
    let '(s, c) := m (updater w) in
    ({| page := page w; settings := settings w; updater := s;
        output := output w |}, c).

(** [await Promise.all([a, b])] for two calls that share no state: both
    run, and the whole rejects if one of them does. *)
Definition all2 {S A C} (a : M S A) (b : M S C) : M S unit :=
  fun s =>
    let '(s1, ca) := a s in
    let '(s2, cb) := b s1 in
    (s2,
     match ca, cb with
     | Normal _, Normal _ => Normal tt
     | Throw e, _ => Throw e
     | _, Throw e => Throw e
     end).

Section Handlers.
(** What [getVersion()], the settings store and the plugin's [check()]
    answer. *)
Variable getVersion : Completion string.
Variable io : Settings.StoreCall -> option Js.Value.
Variable check : Completion (option Updater.Update).

Definition fetchAppVersion : M World unit :=
  try_catch
    (v <- await getVersion ;;
     on_page (fun p =>
       {| installPath := installPath p; appVersion := Some v;
          isLoading := isLoading p;
          updateDialogOpen := updateDialogOpen p |}))%js
    (fun e => put (Logged "Failed to get app version:" e)).

Definition onMount : M World unit :=
  (all2 fetchAppVersion (on_settings (Settings.loadSettings io)) ;;;
   on_page (fun p =>
     {| installPath := installPath p; appVersion := appVersion p;
        isLoading := false; updateDialogOpen := updateDialogOpen p |}))%js.

Definition handleAutoCheckUpdateChange (checked : bool) : M World unit :=
  on_settings (Settings.setAutoCheckUpdate io checked).

Definition handleManualUpdateCheck : M World unit :=
  (found <- on_updater (Updater.checkForUpdate check) ;;
   match found with
   | Some _ =>
       on_page (fun p =>
         {| installPath := installPath p; appVersion := appVersion p;
            isLoading := isLoading p; updateDialogOpen := true |})
   | None =>
       w <- get ;;
       if negb (Part001.truthy (Updater.error (updater w)))
       then put (Shown ToastSuccess "최신 버전입니다" None)
       else put (Shown ToastError "업데이트 확인 실패"
                   (Updater.error (updater w)))
   end)%js.
End Handlers.

(** The switch of the page: [checked={settings.autoCheckUpdate}],
    [disabled={isLoading}]. *)
Definition switch_checked (w : World) : bool :=
  Settings.autoCheckUpdate
    (Settings.deref (settings w) Settings.TheSettings).

Definition switch_disabled (w : World) : bool := isLoading (page w).

End SettingsPage.

(** ** The navigation: the sidebar and the header *)

Module Navigation.

Record MenuItem : Type := {
  title : string;
  url : string
}.

(** [menuItems] of [app-sidebar.svelte]. *)
Definition menuItems : list MenuItem :=
  [ {| title := "한글 POB"; url := "/" |};
    {| title := "설정"; url := "/settings" |} ].

(** [menuItems] of the sidebar with the timer and the guide. *)
Definition menuItemsWide : list MenuItem :=
  [ {| title := "Path of Building"; url := "/" |};
    {| title := "타이머"; url := "/timer" |};
    {| title := "레벨링 가이드"; url := "/guide" |};
    {| title := "설정"; url := "/settings" |} ].

(** [item.url === "/" ? pathname === "/" : pathname.startsWith(item.url)] *)
Definition isActive (item : MenuItem) (pathname : string) : bool :=
  if String.eqb (url item) "/" then String.eqb pathname "/"
  else String.prefix (url item) pathname.

(** [routeTitles] of [app-header.svelte] and
    [routeTitles[pathname] || "페이지"].  A pathname starts with ["/"], and
    no name an object literal inherits does, so the own entries are all a
    pathname can find. *)
Definition routeTitles : gmap string string :=
  list_to_map
    [("/", "Path of Building"); ("/timer", "타이머");
     ("/guide", "레벨링 가이드"); ("/settings", "설정")].

Definition currentTitle (pathname : string) : string :=
  match routeTitles !! pathname with
  | Some t => if String.eqb t "" then "페이지" else t
  | None => "페이지"
  end.

End Navigation.

(** ** A scripted back end, used in examples *)

Module Doubles.

(** A back end that settles each command the way its script says. *)
Record Scripted : Type := {
  on_getInstallPath : Completion (Result string);
  on_installedPobInfo : Completion (Result (option PobVersion));
  on_fetchPob : Completion (Result GoogleDriveFileInfo);
  on_parseVersion : Completion (Result string);
  on_installPob : Completion (Result unit);
  on_cancelInstallPob : Completion (Result unit);
  on_uninstallPob : Completion (Result unit);
  on_executePob : Completion (Result unit)
}.

#[global] Instance commands : Commands Scripted := {|
  getInstallPath b := (b, on_getInstallPath b);
  installedPobInfo b := (b, on_installedPobInfo b);
  fetchPob _ b := (b, on_fetchPob b);
  parseVersion _ b := (b, on_parseVersion b);
  installPob _ _ b := (b, on_installPob b);
  cancelInstallPob b := (b, on_cancelInstallPob b);
  uninstallPob b := (b, on_uninstallPob b);
  executePob b := (b, on_executePob b)
|}.

(** No command can be made at all. *)
Definition unreachable (e : Js.Value) : Scripted :=
  {| on_getInstallPath := Throw e; on_installedPobInfo := Throw e;
     on_fetchPob := Throw e; on_parseVersion := Throw e;
     on_installPob := Throw e; on_cancelInstallPob := Throw e;
     on_uninstallPob := Throw e; on_executePob := Throw e |}.

(** Every command is answered with the same error. *)
Definition refusing (e : ErrorKind) : Scripted :=
  {| on_getInstallPath := Normal (Error e);
     on_installedPobInfo := Normal (Error e);
     on_fetchPob := Normal (Error e); on_parseVersion := Normal (Error e);
     on_installPob := Normal (Error e);
     on_cancelInstallPob := Normal (Error e);
     on_uninstallPob := Normal (Error e); on_executePob := Normal (Error e) |}.

Definition artifact_unversioned : GoogleDriveFileInfo :=
  {| id := "file-2"; name := "PathOfBuilding-win64.zip"; isFolder := false |}.

(** The latest artifact is found, but its name holds no version. *)
Definition unversioned : Scripted :=
  {| on_getInstallPath := Normal (Ok "C:\\PoB");
     on_installedPobInfo := Normal (Ok (Some Samples.record_2_40_0));
     on_fetchPob := Normal (Ok artifact_unversioned);
     on_parseVersion := Normal (Error (Domain "no version in file name"));
     on_installPob := Normal (Ok tt); on_cancelInstallPob := Normal (Ok tt);
     on_uninstallPob := Normal (Ok tt); on_executePob := Normal (Ok tt) |}.

(** The files are removed, but the record cannot be read afterwards. *)
Definition removed_unreadable : Scripted :=
  {| on_getInstallPath := Normal (Ok "C:\\PoB");
     on_installedPobInfo := Normal (Error (Io "access denied"));
     on_fetchPob := Normal (Ok Samples.artifact_2_40_1);
     on_parseVersion := Normal (Ok "2.40.1");
     on_installPob := Normal (Ok tt); on_cancelInstallPob := Normal (Ok tt);
     on_uninstallPob := Normal (Ok tt); on_executePob := Normal (Ok tt) |}.

Definition world {P} (p : P) (b : Scripted) : World P Scripted :=
  {| page := p; backend := b; trace := [] |}.

(** The main route once mounted, with 2.40.0 installed and 2.40.1
    fetched. *)
Definition page_stale_mounted : Page.State :=
  Page.set_isInitialLoading false Samples.page_stale.

(** The main route once mounted: nothing installed, the latest artifact
    known. *)
Definition page_mounted : Page.State :=
  Page.set_isInitialLoading false
    (Page.set_latestVersionString (Some "2.40.1")
       (Page.set_latestVersion (Some Samples.artifact_2_40_1)
          (Page.initial ∅))).

(** The redesigned page during a first install: nothing installed yet, the
    latest artifact known, the download running. *)
Definition part001_first_install : Part001.State :=
  {| Part001.showUninstallDialog := false;
     Part001.installedVersion := None;
     Part001.latestVersion := Some Samples.artifact_2_40_1;
     Part001.latestVersionString := Some "2.40.1";
     Part001.installPath := None; Part001.isInitialLoading := false;
     Part001.isFetchingLatest := false;
     Part001.installProgress := Some Samples.download_started;
     Part001.error := None |}.

End Doubles.

(** * Properties *)

(** ** The updater store *)

(** C9: [checkForUpdate] never throws.  Whatever the plugin's check settles
    to, the call returns: the update (or [null]) when the check resolved,
    and [null] when it rejected, with the failure message in [state.error]:
    the [message] of an [Error], the string conversion of any other value.
    In both cases [state.checking] is false afterwards. *)
Theorem checkForUpdate_never_throws
    (check : Completion (option Updater.Update)) (s : Updater.UpdateState) :
  let '(s', r) := Updater.checkForUpdate check s in
  Updater.checking s' = false /\
  match check with
  | Normal u =>
      r = Normal u /\ Updater.update s' = u /\
      Updater.available s' = bool_decide (u <> None) /\
      Updater.error s' = None
  | Throw e =>
      r = Normal None /\
      Updater.update s' = Updater.update s /\
      Updater.available s' = Updater.available s /\
      Updater.error s' =
        Some (match e with
              | ErrorObj _ message => message
              | Other repr => repr
              end)
  end.
Proof.
  destruct check as [u | [n m | repr]]; cbn; repeat split; reflexivity.
Qed.

Lemma checkForUpdate_never_throws_witness :
  let '(s', r) :=
    Updater.checkForUpdate (Throw (ErrorObj "Error" "network unreachable"))
      Updater.initial in
  Updater.checking s' = false /\
  r = Normal None /\
  Updater.update s' = None /\
  Updater.available s' = false /\
  Updater.error s' = Some "network unreachable".
Proof.
  exact (checkForUpdate_never_throws
           (Throw (ErrorObj "Error" "network unreachable")) Updater.initial).
Defined.

Lemma checkForUpdate_returns
    (check : Completion (option Updater.Update)) (s : Updater.UpdateState) :
  Js.returns (Updater.checkForUpdate check) s.
Proof.
  unfold Js.returns. destruct check as [u | e]; cbn; eauto.
Qed.

(** ** The settings store *)

Section SettingsFacts.
Import Settings.
Variable io : StoreCall -> option Js.Value.

Lemma loadSettings_run (s : State) :
  io CallGet = None ->
  loadSettings io s =
    ({| store := {| cache := Some (entries (store s));
                    on_disk := on_disk (store s) |};
        settings :=
          {| autoCheckUpdate :=
               default true (entries (store s) !! "autoCheckUpdate") |} |},
     Normal TheSettings).
Proof.
  intros Hget.
  unfold loadSettings, store_get, settle, Js.bind, Js.get, Js.await,
    with_store, set_autoCheckUpdate, Js.modify, Js.ret.
  rewrite Hget. reflexivity.
Qed.

Lemma setAutoCheckUpdate_run (value : bool) (s : State) :
  io CallSet = None -> io CallSave = None ->
  setAutoCheckUpdate io value s =
    (let m := <["autoCheckUpdate" := value]> (entries (store s)) in
     {| store := {| cache := Some m; on_disk := m |};
        settings := {| autoCheckUpdate := value |} |},
     Normal tt).
Proof.
  intros Hset Hsave.
  unfold setAutoCheckUpdate, store_set, store_save, settle, Js.bind,
    Js.await, with_store, set_autoCheckUpdate, Js.modify.
  rewrite Hset, Hsave. reflexivity.
Qed.

(** A failing store makes the calls reject, and the shared object keeps
    its value. *)
Lemma setAutoCheckUpdate_store_fails (value : bool) (s : State) e :
  io CallSet = Some e ->
  setAutoCheckUpdate io value s = (s, Throw e).
Proof.
  intros Hset.
  unfold setAutoCheckUpdate, store_set, settle, Js.bind, Js.await.
  rewrite Hset. reflexivity.
Qed.
End SettingsFacts.

(** C10: when the store answers, [loadSettings] returns the settings
    object with [autoCheckUpdate] equal to the stored boolean if the key
    is present and to the default [true] if it is absent; and once
    [setAutoCheckUpdate v] has completed, [getSettings().autoCheckUpdate]
    is [v]. *)
Theorem settings_load_and_set
    (io : Settings.StoreCall -> option Js.Value) (s : Settings.State)
    (v : bool)
    (Hget : io Settings.CallGet = None)
    (Hset : io Settings.CallSet = None)
    (Hsave : io Settings.CallSave = None) :
  (exists s' r,
     Settings.loadSettings io s = (s', Normal r) /\
     match Settings.entries (Settings.store s) !! "autoCheckUpdate" with
     | Some stored => Settings.autoCheckUpdate (Settings.deref s' r) = stored
     | None => Settings.autoCheckUpdate (Settings.deref s' r) = true
     end) /\
  (exists s' s'' r,
     Settings.setAutoCheckUpdate io v s = (s', Normal tt) /\
     Settings.getSettings s' = (s'', Normal r) /\
     Settings.autoCheckUpdate (Settings.deref s'' r) = v).
Proof.
  split.
  - eexists _, _. split; [apply loadSettings_run; exact Hget |].
    cbn. destruct (Settings.entries (Settings.store s) !! "autoCheckUpdate");
      reflexivity.
  - eexists _, _, _. split; [apply setAutoCheckUpdate_run; assumption |].
    split; reflexivity.
Qed.

Lemma settings_load_and_set_witness :
  let io : Settings.StoreCall -> option Js.Value := fun _ => None in
  let s := Settings.initial {["autoCheckUpdate" := false]} in
  (io Settings.CallGet = None /\ io Settings.CallSet = None /\
   io Settings.CallSave = None) /\
  (exists s' r,
     Settings.loadSettings io s = (s', Normal r) /\
     Settings.autoCheckUpdate (Settings.deref s' r) = false) /\
  (exists s' s'' r,
     Settings.setAutoCheckUpdate io true s = (s', Normal tt) /\
     Settings.getSettings s' = (s'', Normal r) /\
     Settings.autoCheckUpdate (Settings.deref s'' r) = true).
Proof.
  intros io s.
  split; [repeat split |].
  destruct (settings_load_and_set io s true eq_refl eq_refl eq_refl)
    as [Hload Hstore].
  split; [| exact Hstore].
  destruct Hload as (s' & r & Hrun & Hval).
  exists s', r. split; [exact Hrun |].
  exact Hval.
Defined.

(** The object [loadSettings] returned is the module's own: a later
    [setAutoCheckUpdate] shows through it. *)
Lemma settings_object_is_shared
    (io : Settings.StoreCall -> option Js.Value) (s s1 s2 : Settings.State)
    (r : Settings.SettingsRef) (v : bool) :
  io Settings.CallGet = None -> io Settings.CallSet = None ->
  io Settings.CallSave = None ->
  Settings.loadSettings io s = (s1, Normal r) ->
  Settings.setAutoCheckUpdate io v s1 = (s2, Normal tt) ->
  Settings.autoCheckUpdate (Settings.deref s2 r) = v.
Proof.
  intros Hget Hset Hsave Hload Hstore.
  rewrite setAutoCheckUpdate_run in Hstore by assumption.
  injection Hstore as <-. destruct r. reflexivity.
Qed.

(** ** The pages: what is shown *)

(** The main route compares the two tokens for equality and nothing else,
    whatever else the page is doing. *)
Lemma Page_update_flags (s : Page.State) installed latest :
  Page.installedVersion s = Some installed ->
  Page.latestVersionString s = Some latest ->
  Page.hasUpdate s = negb (String.eqb (version installed) latest) /\
  Page.isUpToDate s = String.eqb (version installed) latest.
Proof.
  intros Hi Hl. unfold Page.hasUpdate, Page.isUpToDate.
  rewrite Hi, Hl. split; reflexivity.
Qed.

Lemma Page_banner_cases (s : Page.State) installed latest :
  Page.installedVersion s = Some installed ->
  Page.latestVersionString s = Some latest ->
  Page.banner s =
    if Page.isInitialLoading s then None
    else Some (if String.eqb (version installed) latest
               then Page.BannerUpToDate else Page.BannerUpdateAvailable).
Proof.
  intros Hi Hl. unfold Page.banner.
  destruct (Page_update_flags s installed latest Hi Hl) as [-> ->].
  destruct (Page.isInitialLoading s); [reflexivity |].
  destruct (String.eqb (version installed) latest); reflexivity.
Qed.

(** The redesigned page puts a running install first. *)
Lemma Part001_appStatus_updating (s : Part001.State) installed :
  Part001.installedVersion s = Some installed ->
  Part001.isInstalling s = true ->
  Part001.appStatus s = Part001.Updating.
Proof.
  intros Hi Hrun. unfold Part001.appStatus. rewrite Hi, Hrun. reflexivity.
Qed.

Lemma Part001_appStatus_settled (s : Part001.State) installed latest :
  Part001.installedVersion s = Some installed ->
  Part001.latestVersionString s = Some latest ->
  latest <> "" ->
  Part001.isInstalling s = false ->
  Part001.appStatus s =
    if String.eqb (version installed) latest
    then Part001.Idle else Part001.UpdateAvailable.
Proof.
  intros Hi Hl Hne Hrun. unfold Part001.appStatus.
  rewrite Hi, Hrun, Hl. cbn.
  apply String.eqb_neq in Hne. rewrite Hne. cbn.
  destruct (String.eqb (version installed) latest); reflexivity.
Qed.

(** C1, as amended: with an install record and a parsed latest token (a
    token is never the empty string), and while no install is running, a
    page reports that an update is available exactly when the two tokens
    differ as strings, and reports the up-to-date state exactly when they
    are equal; nothing but string equality is consulted.  The main route
    does so during a running install as well, its flags at all times and
    its banner once the first load is over; the redesigned page reports
    the update in progress for the whole of a run. *)
Theorem update_available_iff_tokens_differ
    (installed : PobVersion) (latest : string)
    (p : Page.State) (q : Part001.State)
    (Hp : Page.installedVersion p = Some installed)
    (Hpl : Page.latestVersionString p = Some latest)
    (Hq : Part001.installedVersion q = Some installed)
    (Hql : Part001.latestVersionString q = Some latest)
    (Htoken : latest <> "") :
  (Page.hasUpdate p = true <-> version installed <> latest) /\
  (Page.isUpToDate p = true <-> version installed = latest) /\
  (Page.banner p = Some Page.BannerUpdateAvailable <->
     Page.isInitialLoading p = false /\ version installed <> latest) /\
  (Page.banner p = Some Page.BannerUpToDate <->
     Page.isInitialLoading p = false /\ version installed = latest) /\
  (Part001.appStatus q = Part001.UpdateAvailable <->
     Part001.isInstalling q = false /\ version installed <> latest) /\
  (Part001.appStatus q = Part001.Idle <->
     Part001.isInstalling q = false /\ version installed = latest) /\
  (Part001.appStatus q = Part001.Updating <->
     Part001.isInstalling q = true).
Proof.
  destruct (Page_update_flags p installed latest Hp Hpl) as [Hu Hd].
  rewrite (Page_banner_cases p installed latest Hp Hpl).
  rewrite Hu, Hd.
  destruct (Part001.isInstalling q) eqn:Hrun.
  - rewrite (Part001_appStatus_updating q installed Hq Hrun).
    destruct (Page.isInitialLoading p);
      destruct (String.eqb_spec (version installed) latest) as [Heq | Hne];
      cbn; repeat split; intros; try tauto; try congruence;
      try discriminate; try (destruct_and?; congruence).
  - rewrite (Part001_appStatus_settled q installed latest Hq Hql Htoken Hrun).
    destruct (Page.isInitialLoading p);
      destruct (String.eqb_spec (version installed) latest) as [Heq | Hne];
      cbn; repeat split; intros; try tauto; try congruence;
      try discriminate; try (destruct_and?; congruence).
Qed.

Lemma update_available_iff_tokens_differ_witness :
  (Page.installedVersion Doubles.page_stale_mounted
     = Some Samples.record_2_40_0 /\
   Page.latestVersionString Doubles.page_stale_mounted = Some "2.40.1" /\
   Part001.installedVersion Samples.part001_stale
     = Some Samples.record_2_40_0 /\
   Part001.latestVersionString Samples.part001_stale = Some "2.40.1" /\
   "2.40.1" <> "") /\
  Page.hasUpdate Doubles.page_stale_mounted = true /\
  Page.banner Doubles.page_stale_mounted = Some Page.BannerUpdateAvailable /\
  Part001.appStatus Samples.part001_stale = Part001.UpdateAvailable.
Proof.
  split; [repeat split; discriminate |].
  destruct (update_available_iff_tokens_differ
              Samples.record_2_40_0 "2.40.1"
              Doubles.page_stale_mounted Samples.part001_stale
              eq_refl eq_refl eq_refl eq_refl
              ltac:(discriminate))
    as (Hu & _ & Hb & _ & Ha & _).
  split; [apply Hu; discriminate |].
  split; [apply Hb | apply Ha]; (split; [reflexivity | discriminate]).
Defined.

(** C1, as stated, fails on the redesigned page: during a running install
    the tokens differ, and the page reports the update in progress, not an
    available update. *)
Lemma appStatus_during_install_counterexample :
  Part001.installedVersion Samples.part001_updating
    = Some Samples.record_2_40_0 /\
  Part001.latestVersionString Samples.part001_updating = Some "2.40.1" /\
  version Samples.record_2_40_0 <> "2.40.1" /\
  Part001.appStatus Samples.part001_updating = Part001.Updating /\
  Part001.appStatus Samples.part001_updating <> Part001.UpdateAvailable.
Proof. repeat split; discriminate. Qed.

(** The comparison knows no order: an installed token that a version
    order would rank higher than the latest one is reported as an update
    all the same. *)
Example no_version_order :
  Page.hasUpdate
    (Page.set_installedVersion
       (Some {| version := "2.41.0"; fileId := "file-9";
                installedAt := "2026-01-20T09:00:00Z" |})
       Samples.page_stale) = true.
Proof. reflexivity. Qed.

(** ** The pages: errors *)

Section ErrorHandling.
Context {B : Type} `{Commands B}.

(** What [handleError] does with an error that is not a cancellation. *)
Lemma Page_handleError_surfaces (e : ErrorKind) (context : string)
    (w : World Page.State B) :
  e <> Cancelled ->
  Page.handleError e context w =
    ({| page := Page.set_error
                  (Some {| kind := Bindings.kind e;
                           message := Bindings.message e |}) (page w);
        backend := backend w;
        trace := trace w ++ [Toast ToastError context (Bindings.message e)] |},
     Normal tt).
Proof. destruct e; intros He; try congruence; reflexivity. Qed.

Lemma Part001_handleError_surfaces (e : ErrorKind) (context : string)
    (w : World Part001.State B) :
  e <> Cancelled ->
  Part001.handleError e context w =
    ({| page := Part001.set_error
                  (Some {| kind := Bindings.kind e;
                           message := Bindings.message e |}) (page w);
        backend := backend w;
        trace := trace w ++ [Toast ToastError context (Bindings.message e)] |},
     Normal tt).
Proof. destruct e; intros He; try congruence; reflexivity. Qed.

(** The alert of the main route after an error was surfaced. *)
Lemma Page_alert_after_handleError (e : ErrorKind) (context : string)
    (w : World Page.State B) :
  e <> Cancelled ->
  variant <$> Page.error_alert (page (fst (Page.handleError e context w))) =
    Some (match e with
          | Conflict _ => VariantDefault
          | _ => VariantDestructive
          end).
Proof.
  intros He. rewrite Page_handleError_surfaces by exact He.
  destruct e; try congruence; reflexivity.
Qed.

(** The errors the main route raises itself are hard errors. *)
Lemma Page_alert_own_errors (s : Page.State) (k : string) (m : option string) :
  k = "unknown" \/ k = "domain" ->
  variant <$> Page.error_alert
                (Page.set_error (Some {| kind := k; message := m |}) s) =
    Some VariantDestructive.
Proof. intros [-> | ->]; reflexivity. Qed.
End ErrorHandling.

(** C2: an error of kind [Cancelled] carries no message, and the error
    handler of either page returns on it at once: the page, its visible
    error included, is as before, nothing is shown (the trace gets no
    toast), and the banner of the redesigned page hides an error of that
    kind in any case. *)
Theorem cancelled_is_silent {B : Type} `{Commands B} (context : string)
    (w : World Page.State B) (w1 : World Part001.State B)
    (m : option string) :
  Bindings.message Cancelled = None /\
  Page.handleError Cancelled context w = (w, Normal tt) /\
  Part001.handleError Cancelled context w1 = (w1, Normal tt) /\
  Part001.error_banner
    (Part001.set_error (Some {| kind := "cancelled"; message := m |})
       (page w1)) = None.
Proof. repeat split. Qed.

(** C3 on the redesigned page: a surfaced [Conflict] is shown with the
    destructive variant and the title of a hard error, like every other
    kind. *)
Theorem Part001_conflict_shown_destructive {B : Type} `{Commands B}
    (reason context : string) (w : World Part001.State B) :
  Part001.error_banner
    (page (fst (Part001.handleError (Conflict reason) context w))) =
  Some {| variant := VariantDestructive; title := "오류 발생";
          description :=
            Some (if String.eqb reason "" then
                    "알 수 없는 오류가 발생했습니다."
                  else reason) |}.
Proof.
  cbn. destruct (String.eqb reason ""); reflexivity.
Qed.

(** ** The pages: the install action *)

(** C8: when no latest artifact has been fetched, the install action of
    either page issues no command at all (the back end and the trace are
    as before), sets the visible error to kind [domain] with a message,
    and returns; everything else on the page, the loading flag and the
    install progress included, is as before. *)
Theorem install_without_latest {B : Type} `{Commands B}
    (w : World Page.State B) (w1 : World Part001.State B)
    (Hw : Page.latestVersion (page w) = None)
    (Hw1 : Part001.latestVersion (page w1) = None) :
  let asked :=
    Some {| kind := "domain";
            message := Some "먼저 최신 버전을 확인해주세요." |} in
  (Page.install w =
     ({| page := Page.set_error asked (page w);
         backend := backend w; trace := trace w |}, Normal tt) /\
   Page.isLoading (page (fst (Page.install w))) = Page.isLoading (page w) /\
   Page.isInstalling (page (fst (Page.install w)))
     = Page.isInstalling (page w) /\
   filter is_installPob (invoked (trace (fst (Page.install w))))
     = filter is_installPob (invoked (trace w))) /\
  (Part001.install w1 =
     ({| page := Part001.set_error asked (page w1);
         backend := backend w1; trace := trace w1 |}, Normal tt) /\
   Part001.isInstalling (page (fst (Part001.install w1)))
     = Part001.isInstalling (page w1) /\
   filter is_installPob (invoked (trace (fst (Part001.install w1))))
     = filter is_installPob (invoked (trace w1))).
Proof.
  assert (Hpage : Page.install w =
     ({| page := Page.set_error
                   (Some {| kind := "domain";
                            message := Some "먼저 최신 버전을 확인해주세요." |})
                   (page w);
         backend := backend w; trace := trace w |}, Normal tt)).
  { unfold Page.install, Js.bind, read, Js.get, Js.ret. cbn.
    rewrite Hw. reflexivity. }
  assert (Hpart : Part001.install w1 =
     ({| page := Part001.set_error
                   (Some {| kind := "domain";
                            message := Some "먼저 최신 버전을 확인해주세요." |})
                   (page w1);
         backend := backend w1; trace := trace w1 |}, Normal tt)).
  { unfold Part001.install, Js.bind, read, Js.get, Js.ret. cbn.
    rewrite Hw1. reflexivity. }
  cbn zeta. rewrite Hpage, Hpart. repeat split.
Qed.

Lemma install_without_latest_witness :
  let w := Samples.world (Page.initial ∅)
             (Samples.backend_fresh Backend.no_faults) in
  let w1 := Samples.world Part001.initial
              (Samples.backend_fresh Backend.no_faults) in
  (Page.latestVersion (page w) = None /\
   Part001.latestVersion (page w1) = None) /\
  invoked (trace (fst (Page.install w))) = [] /\
  Page.error (page (fst (Page.install w))) =
    Some {| kind := "domain";
            message := Some "먼저 최신 버전을 확인해주세요." |} /\
  invoked (trace (fst (Part001.install w1))) = [].
Proof.
  intros w w1. split; [split; reflexivity |].
  destruct (install_without_latest w w1 eq_refl eq_refl)
    as [(Hp & _) (Hq & _)].
  rewrite Hp, Hq. repeat split.
Defined.

(** With a latest artifact, the install action issues exactly the
    [installPob] command for it; the main route passes the download mode
    of the moment along, the redesigned page passes none. *)
Lemma Page_install_invokes {B : Type} `{Commands B}
    (w : World Page.State B) latest :
  Page.latestVersion (page w) = Some latest ->
  exists rest,
    trace (fst (Page.install w)) =
      (trace w
       ++ Invoked (CmdInstallPob latest (Some (Page.downloadMode (page w))))
       :: rest)%list /\
    invoked rest = [].
Proof.
  intros Hl.
  unfold Page.install, Js.bind, read, Js.get, Js.ret. cbn. rewrite Hl.
  unfold Js.try_finally, Js.try_catch, Js.bind, invoke, update, emit,
    Js.modify, Js.bind. cbn.
  destruct (installPob latest (Some (Page.downloadMode (page w))) (backend w))
    as [b [[u | e] | e]] eqn:Hanswer; cbn.
  - exists []. split; [reflexivity | reflexivity].
  - destruct e; cbn;
      [exists []; split; reflexivity
      | eexists [_]; rewrite <- app_assoc; split; reflexivity ..].
  - exists []. split; reflexivity.
Qed.

(** ** The version resolver *)

Section VersionFacts.

Lemma append_cons (c : ascii) (a b : string) :
  String c a +:+ b = String c (a +:+ b).
Proof. reflexivity. Qed.

Lemma append_empty_l (b : string) : "" +:+ b = b.
Proof. reflexivity. Qed.

Lemma append_empty_r (a : string) : a +:+ "" = a.
Proof.
  induction a as [| x a IH]; [reflexivity |].
  rewrite append_cons. now rewrite IH.
Qed.

Lemma longest_in_group_total (s : string) :
  exists n, longest InGroup s = Some n.
Proof.
  induction s as [| c rest [n IH]]; cbn; [eauto |].
  rewrite IH. destruct (is_digit c); cbn; [eauto |].
  destruct (is_dot c); [| eauto].
  destruct (longest AfterDot rest); eauto.
Qed.

(** One more character in front of a prefix that [longest] found. *)
Lemma accepted_step (st : Scan) (c : ascii) (rest q : string) (k : nat) :
  rest = substring 0 k rest +:+ q ->
  String.length (substring 0 k rest) = k ->
  accepts st (String c (substring 0 k rest)) = true ->
  exists q',
    String c rest = substring 0 (S k) (String c rest) +:+ q' /\
    String.length (substring 0 (S k) (String c rest)) = S k /\
    accepts st (substring 0 (S k) (String c rest)) = true.
Proof.
  intros Hq Hlen Hacc. exists q.
  cbn [substring]. rewrite append_cons, <- Hq. cbn [String.length].
  rewrite Hlen. repeat split. exact Hacc.
Qed.

(** What [longest] finds is a prefix of that length which completes a
    token. *)
Lemma longest_prefix (st : Scan) (s : string) (n : nat) :
  longest st s = Some n ->
  exists q,
    s = substring 0 n s +:+ q /\
    String.length (substring 0 n s) = n /\
    accepts st (substring 0 n s) = true.
Proof.
  revert st n. induction s as [| c rest IH]; intros st n Hn.
  - destruct st; cbn in Hn; try discriminate.
    injection Hn as <-. exists "". repeat split.
  - assert (Hzero : st = InGroup -> n = 0 ->
              exists q,
                String c rest = substring 0 n (String c rest) +:+ q /\
                String.length (substring 0 n (String c rest)) = n /\
                accepts st (substring 0 n (String c rest)) = true).
    { intros -> ->. exists (String c rest). repeat split. }
    cbn in Hn.
    destruct st; destruct (is_digit c) eqn:Hd;
      try destruct (is_dot c) eqn:Hp; try discriminate;
      try (destruct (longest _ rest) as [k |] eqn:Hk; cbn in Hn;
           try discriminate);
      injection Hn as <-;
      try (apply Hzero; reflexivity);
      destruct (IH _ _ Hk) as (q & Hq & Hlen & Hacc);
      (eapply accepted_step; [exact Hq | exact Hlen |]);
      cbn [accepts]; rewrite Hd, ?Hp; exact Hacc.
Qed.

(** Every prefix that completes a token is found, and none is longer than
    what [longest] answers. *)
Lemma longest_covers (st : Scan) (s p q : string) :
  s = p +:+ q -> accepts st p = true ->
  exists n, longest st s = Some n /\ String.length p <= n.
Proof.
  revert st p q. induction s as [| c rest IH]; intros st p q Hs Hacc.
  - destruct p; [| discriminate]. destruct st; try discriminate.
    exists 0. split; [reflexivity | cbn; lia].
  - destruct p as [| c' p'].
    + destruct st; try discriminate.
      destruct (longest_in_group_total (String c rest)) as [n Hn].
      exists n. split; [exact Hn | cbn; lia].
    + rewrite append_cons in Hs. injection Hs as <- Hrest.
      cbn [accepts] in Hacc. cbn [longest].
      destruct st; destruct (is_digit c); try destruct (is_dot c);
        try discriminate;
        destruct (IH _ _ _ Hrest Hacc) as (n & Hn & Hle); rewrite Hn;
        exists (S n); (split; [reflexivity | cbn; lia]).
Qed.

Lemma match_here_prefix (s : string) (n : nat) :
  match_here s = Some n ->
  exists q,
    s = substring 0 n s +:+ q /\
    String.length (substring 0 n s) = n /\
    is_version_token (substring 0 n s) = true.
Proof.
  destruct s as [| c rest]; cbn [match_here]; [discriminate |].
  destruct (is_digit c) eqn:Hd; [| discriminate].
  destruct (longest InFirst rest) as [k |] eqn:Hk; cbn; [| discriminate].
  intros [= <-]. destruct (longest_prefix _ _ _ Hk) as (q & Hq & Hlen & Hacc).
  exists q. rewrite append_cons, <- Hq. cbn [String.length is_version_token].
  rewrite Hlen, Hd, Hacc. repeat split.
Qed.

Lemma match_here_covers (s p q : string) :
  s = p +:+ q -> is_version_token p = true ->
  exists n, match_here s = Some n /\ String.length p <= n.
Proof.
  intros Hs Htok. destruct p as [| c p']; [discriminate |].
  rewrite append_cons in Hs. subst s.
  cbn [is_version_token] in Htok. apply andb_prop in Htok as [Hd Hacc].
  cbn [match_here]. rewrite Hd.
  destruct (longest_covers InFirst (p' +:+ q) p' q eq_refl Hacc)
    as (n & Hn & Hle).
  rewrite Hn. exists (S n). split; [reflexivity | cbn; lia].
Qed.

(** [find_version] answers the token at the first position where one
    starts, and the longest one there. *)
Lemma find_version_first (s token : string) :
  find_version s = Some token ->
  is_version_token token = true /\
  exists pos,
    occurs_at s pos token /\
    forall pos' token',
      occurs_at s pos' token' -> is_version_token token' = true ->
      pos <= pos' /\
      (pos' = pos -> String.length token' <= String.length token).
Proof.
  revert token. induction s as [| c rest IH]; intros token Hfind.
  - discriminate.
  - cbn [find_version] in Hfind.
    destruct (match_here (String c rest)) as [n |] eqn:Hhere.
    + injection Hfind as <-.
      destruct (match_here_prefix _ _ Hhere) as (q & Hq & Hlen & Htok).
      split; [exact Htok |]. exists 0. split.
      * exists "", q. split; [exact Hq | reflexivity].
      * intros pos' token' (b & a & Hs & Hb) Htok'. split; [lia |].
        intros ->. destruct b; [| discriminate].
        rewrite append_empty_l in Hs.
        destruct (match_here_covers _ _ _ Hs Htok') as (n' & Hn' & Hle).
        assert (n' = n) as -> by congruence.
        eapply Nat.le_trans; [exact Hle |].
        apply Nat.eq_le_incl. symmetry. exact Hlen.
    + destruct (IH token Hfind) as (Htok & pos & (b & a & Hs & Hb) & Hfirst).
      split; [exact Htok |]. exists (S pos). split.
      * exists (String c b), a. rewrite append_cons, <- Hs. cbn.
        rewrite Hb. split; reflexivity.
      * intros pos' token' (b' & a' & Hs' & Hb') Htok'.
        destruct b' as [| c' b'].
        { rewrite append_empty_l in Hs'.
          destruct (match_here_covers _ _ _ Hs' Htok') as (n' & Hn' & _).
          congruence. }
        rewrite append_cons in Hs'. cbn in Hb'.
        injection Hs' as <- Hrest. subst pos'.
        destruct (Hfirst (String.length b') token') as [Hle Hlong].
        { exists b', a'. split; [exact Hrest | reflexivity]. }
        { exact Htok'. }
        split; [lia |]. intros [= Heq]. apply Hlong. exact Heq.
Qed.

Lemma find_version_none (s : string) :
  find_version s = None ->
  forall pos token, occurs_at s pos token -> is_version_token token = false.
Proof.
  induction s as [| c rest IH]; intros Hfind pos token (b & a & Hs & Hb).
  - destruct b; [| discriminate]. destruct token; [reflexivity | discriminate].
  - cbn [find_version] in Hfind.
    destruct (match_here (String c rest)) as [n |] eqn:Hhere; [discriminate |].
    destruct (is_version_token token) eqn:Htok; [| reflexivity].
    destruct b as [| c' b'].
    + rewrite append_empty_l in Hs.
      destruct (match_here_covers _ _ _ Hs Htok) as (n' & Hn' & _).
      congruence.
    + rewrite append_cons in Hs. injection Hs as <- Hrest.
      rewrite <- Htok. apply (IH Hfind (String.length b')).
      exists b', a. split; [exact Hrest | reflexivity].
Qed.

End VersionFacts.

Section VersionShape.

Lemma is_dot_eq (c : ascii) : is_dot c = true -> c = "."%char.
Proof. unfold is_dot. apply Ascii.eqb_eq. Qed.

(** After a token has been completed, digits may follow. *)
Lemma accepts_digits (d : string) :
  all_digits d = true -> accepts InGroup d = true.
Proof.
  induction d as [| c d IH]; [reflexivity |]. cbn.
  intros [Hc Hd]%andb_prop. rewrite Hc. auto.
Qed.

(** Digits in front of a dot are skipped in each state that allows them. *)
Lemma accepts_skip_digits (st : Scan) (d t : string) :
  st <> AfterDot -> all_digits d = true ->
  accepts st (d +:+ "." +:+ t) = accepts AfterDot t.
Proof.
  intros Hst. induction d as [| c d IH]; intros Hd.
  - destruct st; [reflexivity | congruence | reflexivity].
  - cbn in Hd. apply andb_prop in Hd as [Hc Hd].
    rewrite append_cons. cbn [accepts]. rewrite Hc.
    destruct st; try congruence; rewrite <- (IH Hd).
    + reflexivity.
    + clear IH. induction d as [| c' d IH']; [reflexivity |].
      cbn in Hd. apply andb_prop in Hd as [Hc' Hd].
      rewrite append_cons. cbn [accepts]. rewrite Hc'. auto.
Qed.

Lemma accepts_dotted (p : string) (parts : list string) :
  number p -> Forall number parts ->
  accepts AfterDot (p +:+ dotted parts) = true.
Proof.
  intros Hp Hparts. revert p Hp.
  induction Hparts as [| p' parts Hp' Hparts IH]; intros p [Hne Hd].
  - destruct p as [| c d]; [congruence |].
    cbn in Hd. apply andb_prop in Hd as [Hc Hd].
    cbn [dotted]. rewrite append_empty_r. cbn [accepts]. rewrite Hc.
    apply accepts_digits. exact Hd.
  - destruct p as [| c d]; [congruence |].
    cbn in Hd. apply andb_prop in Hd as [Hc Hd].
    cbn [dotted]. rewrite append_cons. cbn [accepts]. rewrite Hc.
    rewrite accepts_skip_digits by (congruence || exact Hd).
    apply IH. exact Hp'.
Qed.

(** What each state accepts, read off the string. *)
Lemma accepts_shape (s : string) :
  (accepts InGroup s = true ->
   exists d parts,
     all_digits d = true /\ Forall number parts /\ s = d +:+ dotted parts) /\
  (accepts AfterDot s = true ->
   exists p parts,
     number p /\ Forall number parts /\ s = p +:+ dotted parts) /\
  (accepts InFirst s = true ->
   exists d p parts,
     all_digits d = true /\ number p /\ Forall number parts /\
     s = d +:+ "." +:+ p +:+ dotted parts).
Proof.
  induction s as [| c s (IHg & IHa & IHf)].
  - repeat split; try discriminate.
    intros _. exists "", []. repeat split. constructor.
  - split; [| split]; cbn [accepts]; intros Hacc.
    + destruct (is_digit c) eqn:Hc.
      * destruct (IHg Hacc) as (d & parts & Hd & Hparts & ->).
        exists (String c d), parts. cbn [all_digits]. rewrite Hc, Hd.
        repeat split. exact Hparts.
      * destruct (is_dot c) eqn:Hp; [| discriminate].
        destruct (IHa Hacc) as (p & parts & Hnum & Hparts & ->).
        apply is_dot_eq in Hp as ->.
        exists "", (p :: parts). repeat split. constructor; assumption.
    + destruct (is_digit c) eqn:Hc; [| discriminate].
      destruct (IHg Hacc) as (d & parts & Hd & Hparts & ->).
      exists (String c d), parts. repeat split; [discriminate | | exact Hparts].
      cbn [all_digits]. rewrite Hc, Hd. reflexivity.
    + destruct (is_digit c) eqn:Hc.
      * destruct (IHf Hacc) as (d & p & parts & Hd & Hnum & Hparts & ->).
        exists (String c d), p, parts. cbn [all_digits]. rewrite Hc, Hd.
        split; [reflexivity |]. split; [exact Hnum |].
        split; [exact Hparts | reflexivity].
      * destruct (is_dot c) eqn:Hp; [| discriminate].
        destruct (IHa Hacc) as (p & parts & Hnum & Hparts & ->).
        apply is_dot_eq in Hp as ->.
        exists "", p, parts.
        split; [reflexivity |]. split; [exact Hnum |].
        split; [exact Hparts | reflexivity].
Qed.

(** A version token is a number followed by one or more groups of a dot
    and a number, and nothing else is. *)
Lemma is_version_token_shape (s : string) :
  is_version_token s = true <->
  exists p parts,
    number p /\ parts <> [] /\ Forall number parts /\ s = p +:+ dotted parts.
Proof.
  split.
  - destruct s as [| c s]; [discriminate |]. cbn [is_version_token].
    intros [Hc Hacc]%andb_prop.
    destruct (proj2 (proj2 (accepts_shape s)) Hacc)
      as (d & p & parts & Hd & Hnum & Hparts & ->).
    exists (String c d), (p :: parts).
    split; [split; [discriminate | cbn [all_digits]; now rewrite Hc, Hd] |].
    split; [discriminate |].
    split; [constructor; assumption |].
    cbn [dotted]. rewrite append_cons. reflexivity.
  - intros (p & parts & [Hne Hd] & Hparts_ne & Hparts & ->).
    destruct p as [| c d]; [congruence |].
    destruct parts as [| p' parts]; [congruence |].
    cbn in Hd. apply andb_prop in Hd as [Hc Hd].
    inversion Hparts as [| ? ? Hp' Hrest]; subst.
    cbn [dotted]. rewrite append_cons. cbn [is_version_token]. rewrite Hc.
    rewrite accepts_skip_digits by (congruence || exact Hd).
    apply accepts_dotted; assumption.
Qed.

End VersionShape.

Section VersionExtraction.

Lemma substring_prefix (p q : string) :
  substring 0 (String.length p) (p +:+ q) = p.
Proof.
  induction p as [| c p IH]; [destruct q; reflexivity |].
  rewrite append_cons. cbn [String.length substring]. now rewrite IH.
Qed.

Lemma longest_after_dot_stops (s : string) :
  match s with
  | String d _ => is_digit d
  | EmptyString => false
  end = false ->
  longest AfterDot s = None.
Proof. destruct s as [| d s]; cbn; [reflexivity | now intros ->]. Qed.

(** A token that the rest does not continue is found in full. *)
Lemma longest_exact (st : Scan) (p rest : string) :
  accepts st p = true -> continues rest = false ->
  longest st (p +:+ rest) = Some (String.length p).
Proof.
  intros Hacc Hstop. revert st Hacc.
  induction p as [| c p IH]; intros st Hacc.
  - destruct st; try discriminate. rewrite append_empty_l.
    destruct rest as [| c rest]; [reflexivity |].
    cbn [continues] in Hstop. apply orb_false_elim in Hstop as [Hc Hnext].
    cbn [longest]. rewrite Hc.
    destruct (is_dot c); [| reflexivity].
    rewrite longest_after_dot_stops by exact Hnext. reflexivity.
  - rewrite append_cons. cbn [accepts] in Hacc. cbn [longest String.length].
    destruct st; destruct (is_digit c); try destruct (is_dot c);
      try discriminate; rewrite (IH _ Hacc); reflexivity.
Qed.

Lemma find_version_skip (before s : string) :
  no_digit before = true ->
  find_version (before +:+ s) = find_version s.
Proof.
  induction before as [| c before IH]; [reflexivity |].
  cbn [no_digit]. intros [Hc Hrest]%andb_prop.
  apply negb_true_iff in Hc.
  rewrite append_cons. cbn [find_version match_here]. rewrite Hc.
  apply IH. exact Hrest.
Qed.

(** Under the naming convention the call returns the token of the name,
    character for character. *)
Lemma extractVersionToken_exact (before token after : string) :
  is_version_token token = true ->
  no_digit before = true ->
  continues after = false ->
  extractVersionToken (before +:+ token +:+ after) = Ok token.
Proof.
  intros Htok Hbefore Hafter. unfold extractVersionToken.
  rewrite find_version_skip by exact Hbefore.
  destruct token as [| c token]; [discriminate |].
  cbn [is_version_token] in Htok. apply andb_prop in Htok as [Hc Hacc].
  rewrite append_cons. cbn [find_version match_here]. rewrite Hc.
  rewrite (longest_exact _ _ _ Hacc Hafter). cbn [fmap option_fmap option_map].
  cbn [substring]. rewrite substring_prefix. reflexivity.
Qed.

Lemma extractVersionToken_found (name : string) pos token :
  occurs_at name pos token -> is_version_token token = true ->
  exists found, extractVersionToken name = Ok found.
Proof.
  intros Hocc Htok. unfold extractVersionToken.
  destruct (find_version name) as [found |] eqn:Hfind; [eauto |].
  rewrite (find_version_none name Hfind pos token Hocc) in Htok.
  discriminate.
Qed.

End VersionExtraction.

(** C4: [extractVersionToken] is a function of the name alone and answers
    every name, the empty one included.  When it succeeds, the answer is a
    dot-separated numeric token that occurs in the name, at the first
    position where such a token starts, and the longest one there; when
    the name holds no such token, and only then, it fails, with a
    [NotFound] error.  As the [parseVersion] command it returns and leaves
    the back end as it was. *)
Theorem extractVersionToken_first_match (name : string) :
  match extractVersionToken name with
  | Ok token =>
      is_version_token token = true /\
      exists pos,
        occurs_at name pos token /\
        forall pos' token',
          occurs_at name pos' token' -> is_version_token token' = true ->
          pos <= pos' /\
          (pos' = pos -> String.length token' <= String.length token)
  | Error e =>
      (exists reason, e = NotFound reason) /\
      forall pos token,
        occurs_at name pos token -> is_version_token token = false
  end /\
  (exists reason, extractVersionToken "" = Error (NotFound reason)) /\
  (forall s : Backend.State,
     parseVersion name s = (s, Normal (extractVersionToken name))).
Proof.
  split; [| split; [eexists; reflexivity | reflexivity]].
  unfold extractVersionToken.
  destruct (find_version name) as [token |] eqn:Hfind.
  - apply find_version_first. exact Hfind.
  - split; [eexists; reflexivity |].
    apply find_version_none. exact Hfind.
Qed.

Example extract_with_suffix :
  extractVersionToken "PathOfBuilding-2.40.1-win64.zip" = Ok "2.40.1".
Proof. reflexivity. Qed.

Example extract_first_of_two :
  extractVersionToken "pob-1.2.3-from-1.2.2.zip" = Ok "1.2.3".
Proof. reflexivity. Qed.

Example extract_skips_lone_numbers :
  extractVersionToken "win64-build7-2.40.1.zip" = Ok "2.40.1".
Proof. reflexivity. Qed.

Example extract_nothing :
  extractVersionToken "PathOfBuilding-win64.zip"
  = Error (NotFound "no version in PathOfBuilding-win64.zip").
Proof. reflexivity. Qed.

(** ** The install pipeline *)

Section PipelineFacts.
Import Backend.

Lemma push_pushes (e : InstallProgress) (s : State) : push e s = pushes [e] s.
Proof. reflexivity. Qed.

(** The download engine reads the state and leaves it alone. *)
Lemma download_state (ref : GoogleDriveFileInfo) (mode : DownloadMode)
    (s : State) :
  fst (download ref mode s) = s.
Proof.
  unfold download, fetch.
  destruct (cancelled_in Downloading s); [reflexivity |].
  destruct mode; repeat case_match; simplify_eq; reflexivity.
Qed.

(** Every strategy delivers the archive the host publishes. *)
Lemma download_archive (ref : GoogleDriveFileInfo) (mode : DownloadMode)
    (s : State) (a : Archive) :
  snd (download ref mode s) = Ok a -> remote s !! id ref = Some a.
Proof.
  unfold download, fetch.
  destruct (cancelled_in Downloading s); [discriminate |].
  destruct mode; repeat case_match; simplify_eq; cbn; congruence.
Qed.

Lemma downloading_ok (ref : GoogleDriveFileInfo) (mode : DownloadMode)
    (s s1 : State) (a : Archive) :
  downloading ref mode s = (s1, Ok a) ->
  remote s !! id ref = Some a /\
  s1 = pushes
         [ {| phase := Downloading; status := Started; percent := 0;
              totalSize := Some (size a); reason := None |};
           {| phase := Downloading; status := InProgress; percent := 100;
              totalSize := Some (size a); reason := None |} ] s.
Proof.
  unfold downloading, emit. rewrite push_pushes.
  set (s0 := pushes _ s).
  pose proof (download_state ref mode s0) as Hst.
  pose proof (download_archive ref mode s0) as Har.
  destruct (download ref mode s0) as [s2 [a' | e]]; [| discriminate].
  cbn in Hst. subst s2. intros [= <- <-].
  specialize (Har a' eq_refl). cbn in Har.
  split; [exact Har |]. subst s0. rewrite Har. cbn.
  unfold pushes, push. cbn. rewrite <- app_assoc. reflexivity.
Qed.

Lemma downloading_fails (ref : GoogleDriveFileInfo) (mode : DownloadMode)
    (s s1 : State) (e : ErrorKind) :
  downloading ref mode s = (s1, Error e) ->
  s1 = pushes
         [ {| phase := Downloading; status := Started; percent := 0;
              totalSize := size <$> remote s !! id ref; reason := None |} ] s.
Proof.
  unfold downloading, emit. rewrite push_pushes.
  set (s0 := pushes _ s).
  pose proof (download_state ref mode s0) as Hst.
  destruct (download ref mode s0) as [s2 [a' | e']]; [discriminate |].
  cbn in Hst. subst s2. intros [= <- _]. reflexivity.
Qed.

Lemma extracting_ok (a : Archive) (s s2 : State) (staged : Contents) :
  extracting a s = (s2, Ok staged) ->
  payload a = Some staged /\
  s2 = pushes
         [ {| phase := Extracting; status := Started; percent := 0;
              totalSize := None; reason := None |} ] s.
Proof.
  unfold extracting, emit. rewrite push_pushes.
  destruct (cancelled_in Extracting _); [discriminate |].
  destruct (payload a); [| discriminate].
  intros [= <- <-]. split; reflexivity.
Qed.

Lemma extracting_fails (a : Archive) (s s2 : State) (e : ErrorKind) :
  extracting a s = (s2, Error e) ->
  s2 = pushes
         [ {| phase := Extracting; status := Started; percent := 0;
              totalSize := None; reason := None |} ] s.
Proof.
  unfold extracting, emit. rewrite push_pushes.
  destruct (cancelled_in Extracting _); [now intros [= <- _] |].
  destruct (payload a); [discriminate |]. now intros [= <- _].
Qed.

Lemma backingUp_made (s s3 : State) :
  backingUp s = (s3, Ok true) ->
  exists old,
    install_root s = Some old /\
    s3 = set_backup (Some old)
           (set_install_root None
              (pushes
                 [ {| phase := BackingUp; status := Started; percent := 0;
                      totalSize := None; reason := None |} ] s)).
Proof.
  unfold backingUp, emit. rewrite push_pushes.
  destruct (install_root s) as [old |]; [| discriminate].
  destruct (backup_error _); [discriminate |].
  intros [= <-]. exists old. split; reflexivity.
Qed.

Lemma backingUp_skipped (s s3 : State) :
  backingUp s = (s3, Ok false) -> install_root s = None /\ s3 = s.
Proof.
  unfold backingUp.
  destruct (install_root s) as [old |]; [| now intros [= <-]].
  destruct (backup_error _); discriminate.
Qed.

Lemma backingUp_fails (s s3 : State) (e : ErrorKind) :
  backingUp s = (s3, Error e) ->
  s3 = pushes
         [ {| phase := BackingUp; status := Started; percent := 0;
              totalSize := None; reason := None |} ] s.
Proof.
  unfold backingUp, emit. rewrite push_pushes.
  destruct (install_root s) as [old |]; [| discriminate].
  destruct (backup_error _); [| discriminate]. now intros [= <- _].
Qed.

Lemma moving_ok (staged : Contents) (s s4 : State) :
  moving staged s = (s4, Ok tt) ->
  s4 = set_install_root (Some staged)
         (pushes
            [ {| phase := Moving; status := Started; percent := 0;
                 totalSize := None; reason := None |} ] s).
Proof.
  unfold moving, emit. rewrite push_pushes.
  destruct (move_error _) as [[why debris] |]; [discriminate |].
  now intros [= <-].
Qed.

Lemma moving_fails (staged : Contents) (s s4 : State) (e : ErrorKind) :
  moving staged s = (s4, Error e) ->
  exists why debris,
    e = Io why /\
    s4 = set_install_root debris
           (pushes
              [ {| phase := Moving; status := Started; percent := 0;
                   totalSize := None; reason := None |} ] s).
Proof.
  unfold moving, emit. rewrite push_pushes.
  destruct (move_error _) as [[why debris] |]; [| discriminate].
  intros [= <- <-]. exists why, debris. split; reflexivity.
Qed.

Lemma restoring_ok (s s5 : State) :
  restoring s = (s5, Ok tt) ->
  s5 = set_backup None
         (set_install_root (backup s)
            (pushes
               [ {| phase := Restoring; status := Started; percent := 0;
                    totalSize := None; reason := None |} ] s)).
Proof.
  unfold restoring, emit. rewrite push_pushes.
  destruct (restore_error _) as [[why debris] |]; [discriminate |].
  now intros [= <-].
Qed.

Lemma restoring_fails (s s5 : State) (e : ErrorKind) :
  restoring s = (s5, Error e) ->
  exists why debris,
    e = Io why /\
    s5 = set_install_root debris
           (pushes
              [ {| phase := Restoring; status := Started; percent := 0;
                   totalSize := None; reason := None |} ] s).
Proof.
  unfold restoring, emit. rewrite push_pushes.
  destruct (restore_error _) as [[why debris] |]; [| discriminate].
  intros [= <- <-]. exists why, debris. split; reflexivity.
Qed.

End PipelineFacts.

(** C5, as amended: in an install run where the backup was made and the
    move into the install root then fails, the pipeline enters
    [restoring], no event of the run says [completed], the run ends with a
    [failed] event that carries the reason of the error the call returns,
    and the install record is untouched.  If the restore succeeds, that
    error is the one of the move and the install root holds its contents
    from before the run again; if the restore fails as well, the error is
    the [Io] error of the restore and the install root is left as the
    failed restore left it. *)
Theorem failed_move_is_rolled_back
    (ref : GoogleDriveFileInfo) (mode : DownloadMode) (token : string)
    (s s1 s2 s3 s4 : Backend.State)
    (archive : Backend.Archive) (staged : Backend.Contents) (e : ErrorKind)
    (Hidle : Backend.running s = false)
    (Hfree : Backend.target_running s = false)
    (Htoken : extractVersionToken (name ref) = Ok token)
    (Hdownload :
       Backend.downloading ref mode (Backend.set_running true s)
       = (s1, Ok archive))
    (Hextract : Backend.extracting archive s1 = (s2, Ok staged))
    (Hbackup : Backend.backingUp s2 = (s3, Ok true))
    (Hmove : Backend.moving staged s3 = (s4, Error e)) :
  let '(s', r) := Backend.install ref mode s in
  Restoring ∈ (phase <$> Backend.events_since s s') /\
  Forall (fun ev => status ev <> Completed) (Backend.events_since s s') /\
  Backend.installedVersion s' = Backend.installedVersion s /\
  (exists ev failure,
     Backend.last_event s' = Some ev /\ r = Error failure /\
     status ev = Failed /\ reason ev = Bindings.message failure) /\
  match Backend.restoring s4 with
  | (_, Ok _) =>
      r = Error e /\ Backend.install_root s' = Backend.install_root s
  | (s5, Error e') =>
      r = Error e' /\ (exists why, e' = Io why) /\
      Backend.install_root s' = Backend.install_root s5
  end.
Proof.
  unfold Backend.install, Backend.run_phases.
  rewrite Hidle, Hfree, Htoken, Hdownload, Hextract, Hbackup, Hmove.
  apply downloading_ok in Hdownload as [_ ->].
  apply extracting_ok in Hextract as [_ ->].
  apply backingUp_made in Hbackup as (old & Hold & ->).
  apply moving_fails in Hmove as (why & debris & -> & ->).
  cbn in Hold.
  destruct (Backend.restoring _) as [s5 [[] | e']] eqn:Hrestore.
  - apply restoring_ok in Hrestore as ->.
    unfold Backend.events_since, Backend.last_event. cbn.
    rewrite <- !app_assoc. cbn. rewrite drop_app_length, last_app. cbn.
    split; [set_solver |].
    split; [repeat constructor; discriminate |].
    split; [reflexivity |].
    split; [eexists _, _; repeat split |].
    split; [reflexivity | congruence].
  - apply restoring_fails in Hrestore as (why' & debris' & -> & ->).
    unfold Backend.events_since, Backend.last_event. cbn.
    rewrite <- !app_assoc. cbn. rewrite drop_app_length, last_app. cbn.
    split; [set_solver |].
    split; [repeat constructor; discriminate |].
    split; [reflexivity |].
    split; [eexists _, _; repeat split |].
    split; [reflexivity |]. split; [eauto | reflexivity].
Qed.

Lemma failed_move_is_rolled_back_witness :
  let s := Samples.backend_stale Samples.move_fails in
  let '(s', r) := Backend.install Samples.artifact_2_40_1 Auto s in
  Restoring ∈ (phase <$> Backend.events_since s s') /\
  Forall (fun ev => status ev <> Completed) (Backend.events_since s s') /\
  Backend.installedVersion s' = Some Samples.record_2_40_0 /\
  (exists ev failure,
     Backend.last_event s' = Some ev /\ r = Error failure /\
     status ev = Failed /\ reason ev = Bindings.message failure) /\
  r = Error (Io "disk full") /\
  Backend.install_root s' = Some Samples.old_files.
Proof.
  intros s.
  set (a := {| Backend.size := 3;
               Backend.payload := Some Samples.new_files |}).
  set (s1 := fst (Backend.downloading Samples.artifact_2_40_1 Auto
                    (Backend.set_running true s))).
  set (s2 := fst (Backend.extracting a s1)).
  set (s3 := fst (Backend.backingUp s2)).
  set (s4 := fst (Backend.moving Samples.new_files s3)).
  apply (failed_move_is_rolled_back
           Samples.artifact_2_40_1 Auto "2.40.1" s s1 s2 s3 s4
           a Samples.new_files (Io "disk full")); reflexivity.
Defined.

(** C5, as stated, fails when the restore fails as well: the backup was
    made and the move failed, yet the install root is not what it was
    before the run, and the run ends with the error of the restore, not
    the one of the move. *)
Lemma restore_failure_counterexample :
  let s := Samples.backend_stale Samples.move_and_restore_fail in
  let '(s', r) := Backend.install Samples.artifact_2_40_1 Auto s in
  (exists s1 s2 s3 s4 archive staged,
     Backend.downloading Samples.artifact_2_40_1 Auto
       (Backend.set_running true s) = (s1, Ok archive) /\
     Backend.extracting archive s1 = (s2, Ok staged) /\
     Backend.backingUp s2 = (s3, Ok true) /\
     Backend.moving staged s3 = (s4, Error (Io "disk full"))) /\
  Backend.install_root s = Some Samples.old_files /\
  Backend.install_root s' = Some Samples.half_moved /\
  Backend.install_root s' <> Backend.install_root s /\
  r = Error (Io "access denied") /\
  r <> Error (Io "disk full") /\
  (reason <$> Backend.last_event s') = Some (Some "access denied").
Proof.
  intros s.
  set (a := {| Backend.size := 3;
               Backend.payload := Some Samples.new_files |}).
  set (s1 := fst (Backend.downloading Samples.artifact_2_40_1 Auto
                    (Backend.set_running true s))).
  set (s2 := fst (Backend.extracting a s1)).
  set (s3 := fst (Backend.backingUp s2)).
  set (s4 := fst (Backend.moving Samples.new_files s3)).
  assert (Hrun : Backend.install Samples.artifact_2_40_1 Auto s
                 = (Backend.set_running false
                      (Backend.terminal Restoring (Error (Io "access denied"))
                         (fst (Backend.restoring s4))),
                    Error (Io "access denied")))
    by (vm_compute; reflexivity).
  rewrite Hrun.
  split.
  { exists s1, s2, s3, s4, a, Samples.new_files.
    split; [reflexivity |]. split; [reflexivity |]. split; reflexivity. }
  split; [reflexivity |]. split; [reflexivity |].
  split.
  { intros Heq.
    apply (f_equal (fun root => root ≫= (.!! "PathOfBuilding.exe"))) in Heq.
    vm_compute in Heq. discriminate Heq. }
  split; [reflexivity |]. split; [discriminate | reflexivity].
Qed.

(** ** The install record *)

Section RecordFacts.
Import Backend.

Lemma quiet_refl (s : State) : quiet s s.
Proof.
  repeat split. exists []. split; [now rewrite app_nil_r | constructor].
Qed.

Lemma quiet_trans (s1 s2 s3 : State) : quiet s1 s2 -> quiet s2 s3 -> quiet s1 s3.
Proof.
  intros (Hr1 & Hc1 & evs1 & Hb1 & Hq1) (Hr2 & Hc2 & evs2 & Hb2 & Hq2).
  split; [congruence |]. split; [congruence |].
  exists (evs1 ++ evs2). split.
  - rewrite Hb2, Hb1, app_assoc. reflexivity.
  - apply Forall_app. split; assumption.
Qed.

(** A store-preserving change behind some events that are not terminal. *)
Lemma quiet_pushes (s s' : State) (evs : list InstallProgress) :
  record s' = record s -> clock s' = clock s ->
  bus s' = (bus s ++ evs)%list ->
  Forall (fun ev => status ev <> Completed) evs ->
  quiet s s'.
Proof. intros Hr Hc Hb Hq. repeat split; eauto. Qed.

Ltac quiet_by_events :=
  eapply quiet_pushes;
  [reflexivity | reflexivity | cbn; rewrite <- ?app_assoc; reflexivity
  | repeat constructor; discriminate].

Lemma downloading_quiet (ref : GoogleDriveFileInfo) (mode : DownloadMode)
    (s s1 : State) (r : Result Archive) :
  downloading ref mode s = (s1, r) -> quiet s s1.
Proof.
  destruct r as [a | e]; intros Hrun.
  - apply downloading_ok in Hrun as [_ ->]. quiet_by_events.
  - apply downloading_fails in Hrun as ->. quiet_by_events.
Qed.

Lemma extracting_quiet (a : Archive) (s s2 : State) (r : Result Contents) :
  extracting a s = (s2, r) -> quiet s s2.
Proof.
  destruct r as [staged | e]; intros Hrun.
  - apply extracting_ok in Hrun as [_ ->]. quiet_by_events.
  - apply extracting_fails in Hrun as ->. quiet_by_events.
Qed.

Lemma backingUp_quiet (s s3 : State) (r : Result bool) :
  backingUp s = (s3, r) -> quiet s s3.
Proof.
  destruct r as [[|] | e]; intros Hrun.
  - apply backingUp_made in Hrun as (old & _ & ->). quiet_by_events.
  - apply backingUp_skipped in Hrun as [_ ->]. apply quiet_refl.
  - apply backingUp_fails in Hrun as ->. quiet_by_events.
Qed.

Lemma moving_quiet (staged : Contents) (s s4 : State) (r : Result unit) :
  moving staged s = (s4, r) -> quiet s s4.
Proof.
  destruct r as [[] | e]; intros Hrun.
  - apply moving_ok in Hrun as ->. quiet_by_events.
  - apply moving_fails in Hrun as (why & debris & _ & ->). quiet_by_events.
Qed.

Lemma restoring_quiet (s s5 : State) (r : Result unit) :
  restoring s = (s5, r) -> quiet s s5.
Proof.
  destruct r as [[] | e]; intros Hrun.
  - apply restoring_ok in Hrun as ->. quiet_by_events.
  - apply restoring_fails in Hrun as (why & debris & _ & ->). quiet_by_events.
Qed.

(** The phases of a run that fails are all quiet. *)
Lemma run_phases_error (ref : GoogleDriveFileInfo) (mode : DownloadMode)
    (token : string) (s s' : State) (p : Phase) (e : ErrorKind) :
  run_phases ref mode token s = (s', p, Error e) -> quiet s s'.
Proof.
  unfold run_phases.
  destruct (downloading ref mode s) as [s1 [archive | e1]] eqn:H1;
    apply downloading_quiet in H1; [| now intros [= <- _ _]].
  destruct (extracting archive s1) as [s2 [staged | e2]] eqn:H2;
    apply extracting_quiet in H2;
    [| intros [= <- _ _]; eauto using quiet_trans].
  destruct (backingUp s2) as [s3 [made | e3]] eqn:H3;
    apply backingUp_quiet in H3;
    [| intros [= <- _ _]; eauto using quiet_trans].
  destruct (moving staged s3) as [s4 [[] | e4]] eqn:H4;
    apply moving_quiet in H4; [discriminate |].
  destruct made.
  - destruct (restoring s4) as [s5 [[] | e5]] eqn:H5;
      apply restoring_quiet in H5; intros [= <- _ _];
      eauto 6 using quiet_trans.
  - intros [= <- _ _]. eauto 6 using quiet_trans.
Qed.

(** The phases of a run that succeeds end in [finalizing], which writes
    the record of the artifact. *)
Lemma run_phases_ok (ref : GoogleDriveFileInfo) (mode : DownloadMode)
    (token : string) (s s' : State) (p : Phase) (u : unit) :
  run_phases ref mode token s = (s', p, Ok u) ->
  p = Finalizing /\
  record s' =
    Some {| version := token; fileId := id ref; installedAt := clock s |} /\
  exists evs,
    bus s' = (bus s ++ evs)%list /\
    Forall (fun ev => status ev <> Completed) evs.
Proof.
  unfold run_phases.
  destruct (downloading ref mode s) as [s1 [archive | e1]] eqn:H1;
    apply downloading_quiet in H1; [| discriminate].
  destruct (extracting archive s1) as [s2 [staged | e2]] eqn:H2;
    apply extracting_quiet in H2; [| discriminate].
  destruct (backingUp s2) as [s3 [made | e3]] eqn:H3;
    apply backingUp_quiet in H3; [| discriminate].
  destruct (moving staged s3) as [s4 [[] | e4]] eqn:H4;
    apply moving_quiet in H4.
  - pose proof (quiet_trans _ _ _ (quiet_trans _ _ _ H1 H2)
                  (quiet_trans _ _ _ H3 H4)) as (_ & Hc & evs & Hb & Hq).
    unfold finalizing, emit. intros [= <- <-]. cbn.
    split; [reflexivity |]. split; [now rewrite Hc |].
    exists (evs ++ [{| phase := Finalizing; status := Started; percent := 0;
                       totalSize := None; reason := None |}]).
    split; [now rewrite Hb, app_assoc |].
    apply Forall_app. split; [exact Hq | repeat constructor; discriminate].
  - destruct made; [destruct (restoring s4) as [s5 [[] | e5]] |]; discriminate.
Qed.

Lemma install_ok (ref : GoogleDriveFileInfo) (mode : DownloadMode)
    (s s' : State) (u : unit) :
  install ref mode s = (s', Ok u) ->
  (exists token,
     extractVersionToken (name ref) = Ok token /\
     record s' =
       Some {| version := token; fileId := id ref;
               installedAt := clock s |}) /\
  exists ev, last_event s' = Some ev /\ status ev = Completed.
Proof.
  unfold install.
  destruct (running s); [discriminate |].
  destruct (target_running s); [discriminate |].
  destruct (extractVersionToken (name ref)) as [token | e]; [| discriminate].
  destruct (run_phases ref mode token (set_running true s))
    as [[s1 p] [u' | e]] eqn:Hrun; [| discriminate].
  apply run_phases_ok in Hrun as (-> & Hrec & _).
  intros [= <-]. cbn. split.
  - exists token. split; [reflexivity | exact Hrec].
  - unfold last_event. cbn. rewrite last_snoc. eexists. split; reflexivity.
Qed.

Lemma install_error (ref : GoogleDriveFileInfo) (mode : DownloadMode)
    (s s' : State) (e : ErrorKind) :
  install ref mode s = (s', Error e) ->
  record s' = record s /\
  Forall (fun ev => status ev <> Completed) (events_since s s').
Proof.
  assert (Hsame : forall e', (s, @Error unit e') = (s', Error e) ->
            record s' = record s /\
            Forall (fun ev => status ev <> Completed) (events_since s s')).
  { intros e' [= <- _]. split; [reflexivity |].
    unfold events_since. rewrite drop_all. constructor. }
  unfold install.
  destruct (running s); [apply Hsame |].
  destruct (target_running s); [apply Hsame |].
  destruct (extractVersionToken (name ref)) as [token | e0]; [| apply Hsame].
  destruct (run_phases ref mode token (set_running true s))
    as [[s1 p] [u' | e1]] eqn:Hrun; [discriminate |].
  apply run_phases_error in Hrun as (Hrec & _ & evs & Hb & Hq).
  intros [= <- <-]. clear Hsame. cbn in Hrec, Hb.
  assert (Hterm : exists ev,
            bus (terminal p (Error e1) s1) = bus s1 ++ [ev] /\
            status ev <> Completed /\
            record (terminal p (Error e1) s1) = record s1).
  { destruct e1; cbn; eexists; (split; [reflexivity |]);
      (split; [discriminate | reflexivity]). }
  destruct Hterm as (ev & Hbt & Hev & Hrt).
  set (t := terminal p (Error e1) s1) in *.
  change (record t = record s /\
          Forall (fun ev => status ev <> Completed)
            (drop (length (bus s)) (bus t))).
  split; [congruence |].
  rewrite Hbt, Hb, <- app_assoc, drop_app_length.
  apply Forall_app. split; [exact Hq | repeat constructor; exact Hev].
Qed.

Lemma uninstall_ok (s s' : State) (u : unit) :
  uninstall s = (s', Ok u) -> record s' = None.
Proof.
  unfold uninstall.
  destruct (running s); [discriminate |].
  destruct (target_running s); [discriminate |].
  cbn. destruct (uninstall_error (faults s)); [discriminate |].
  now intros [= <-].
Qed.

Lemma uninstall_error (s s' : State) (e : ErrorKind) :
  uninstall s = (s', Error e) -> record s' = record s.
Proof.
  unfold uninstall.
  destruct (running s); [now intros [= <- _] |].
  destruct (target_running s); [now intros [= <- _] |].
  cbn. destruct (Backend.uninstall_error (faults s)); [| discriminate].
  now intros [= <- _].
Qed.

(** As long as no install has succeeded there is no record. *)
Lemma no_record_without_install (cs : list Call) (s : State) :
  record s = None -> no_install_succeeded cs s -> record (run cs s) = None.
Proof.
  revert s. induction cs as [| c cs IH]; intros s Hnone Hcs; [exact Hnone |].
  destruct Hcs as [Hc Hcs]. cbn [run]. apply IH; [| exact Hcs].
  destruct c as [ref mode | | f busy now]; cbn in *.
  - destruct (install ref mode s) as [s' [[] | e]] eqn:Hrun; cbn in *.
    + congruence.
    + apply install_error in Hrun as [-> _]. exact Hnone.
  - destruct (uninstall s) as [s' [[] | e]] eqn:Hrun; cbn.
    + apply uninstall_ok in Hrun. exact Hrun.
    + apply uninstall_error in Hrun as ->. exact Hnone.
  - exact Hnone.
Qed.

End RecordFacts.

(** C6: [installedVersion] answers [None] as long as no install has
    succeeded; right after a run that ended with a [completed] event it
    answers a record whose version is the token resolved from the name of
    the artifact just installed; and right after a successful uninstall
    it answers [None] again. *)
Theorem installedVersion_follows_runs :
  (forall host latest path now f cs,
     Backend.no_install_succeeded cs (Backend.fresh host latest path now f) ->
     Backend.installedVersion
       (Backend.run cs (Backend.fresh host latest path now f)) = None) /\
  (forall ref mode s s' r,
     Backend.install ref mode s = (s', r) ->
     (exists ev, ev ∈ Backend.events_since s s' /\ status ev = Completed) ->
     exists token installed,
       extractVersionToken (name ref) = Ok token /\
       Backend.installedVersion s' = Some installed /\
       version installed = token) /\
  (forall s s' u,
     Backend.uninstall s = (s', Ok u) -> Backend.installedVersion s' = None).
Proof.
  split; [| split].
  - intros host latest path now f cs Hcs.
    apply no_record_without_install; [reflexivity | exact Hcs].
  - intros ref mode s s' [u | e] Hrun (ev & Hin & Hev).
    + apply install_ok in Hrun as [(token & Htok & Hrec) _].
      exists token, {| version := token; fileId := id ref;
                       installedAt := Backend.clock s |}.
      split; [exact Htok |]. split; [exact Hrec | reflexivity].
    + apply install_error in Hrun as [_ Hquiet].
      rewrite Forall_forall in Hquiet. destruct (Hquiet ev Hin Hev).
  - intros s s' u Hrun. eapply uninstall_ok. exact Hrun.
Qed.

Lemma installedVersion_follows_runs_witness :
  let s0 := Samples.backend_fresh Backend.no_faults in
  let cancelled :=
    [Backend.CallEnv Samples.cancel_download false "2026-01-13T10:00:00Z";
     Backend.CallInstall Samples.artifact_2_40_1 Auto] in
  let s1 := fst (Backend.install Samples.artifact_2_40_1 Auto s0) in
  let s2 := fst (Backend.uninstall s1) in
  Backend.no_install_succeeded cancelled s0 /\
  Backend.installedVersion (Backend.run cancelled s0) = None /\
  (exists token installed,
     extractVersionToken "PathOfBuilding-2.40.1.zip" = Ok token /\
     Backend.installedVersion s1 = Some installed /\
     version installed = token) /\
  Backend.installedVersion s2 = None.
Proof.
  intros s0 cancelled s1 s2.
  destruct installedVersion_follows_runs as (Hbefore & Hafter & Hremoved).
  assert (Hcancelled : Backend.no_install_succeeded cancelled s0).
  { split; [exact I |]. split; [| exact I]. vm_compute. discriminate. }
  split; [exact Hcancelled |].
  split; [apply (Hbefore _ _ _ _ _ cancelled Hcancelled) |].
  split.
  - apply (Hafter Samples.artifact_2_40_1 Auto s0 s1 (Ok tt));
      [vm_compute; reflexivity |].
    exists {| phase := Finalizing; status := Completed; percent := 100;
              totalSize := None; reason := None |}.
    split; [| reflexivity]. apply list_elem_of_In. vm_compute.
    repeat (first [left; reflexivity | right]).
  - apply (Hremoved s1 s2 tt). vm_compute. reflexivity.
Defined.

(** What the pages show follows the record: the check copies the answer
    of the back end into the page. *)
Lemma Page_checkInstalledVersion_reads_record
    (w : World Page.State Backend.State) :
  exists w',
    Page.checkInstalledVersion w = (w', Normal tt) /\
    Page.installedVersion (page w') = Backend.installedVersion (backend w) /\
    backend w' = backend w.
Proof. eexists. split; [reflexivity |]. split; reflexivity. Qed.

(** After a successful uninstall from the page, the page shows no
    installed version. *)
Lemma Page_uninstall_clears (w : World Page.State Backend.State) b u :
  Backend.uninstall (backend w) = (b, Ok u) ->
  exists w',
    Page.uninstall w = (w', Normal tt) /\
    Page.installedVersion (page w') = None /\
    backend w' = b.
Proof.
  intros Hrun. pose proof (uninstall_ok _ _ _ Hrun) as Hnone.
  unfold Page.uninstall, Js.bind, Js.try_finally, Js.try_catch, invoke,
    update, emit, Js.modify, Js.bind. cbn.
  rewrite Hrun. cbn. eexists. split; [reflexivity |].
  cbn. split; [exact Hnone | reflexivity].
Qed.

(** ** The download mode *)

Section ModeFacts.
Import Backend.

Lemma parse_mode_string (m : DownloadMode) :
  parse_mode (Some (mode_string m)) = Some m.
Proof. destruct m; reflexivity. Qed.

(** The page keeps the mode for its own use: in its variable, and in the
    local storage of the browser under the key of the same name. *)
Lemma setDownloadMode_sets (m : DownloadMode) (s : Page.State) :
  Page.downloadMode (Page.setDownloadMode m s) = mode_string m /\
  Page.localStorage (Page.setDownloadMode m s) !! "downloadMode"
    = Some (mode_string m) /\
  Page.initial_downloadMode (Page.localStorage (Page.setDownloadMode m s))
    = mode_string m.
Proof.
  split; [reflexivity |]. unfold Page.initial_downloadMode. cbn.
  rewrite lookup_insert_eq. split; [reflexivity |]. destruct m; reflexivity.
Qed.

(** Whatever the strategy, a download that succeeds delivers the same
    archive and leaves the same state. *)
Lemma downloading_mode (ref : GoogleDriveFileInfo) (m1 m2 : DownloadMode)
    (s s1 s2 : State) (a1 a2 : Archive) :
  downloading ref m1 s = (s1, Ok a1) ->
  downloading ref m2 s = (s2, Ok a2) ->
  s1 = s2 /\ a1 = a2.
Proof.
  intros [Ha1 ->]%downloading_ok [Ha2 ->]%downloading_ok.
  assert (a1 = a2) as -> by congruence. split; reflexivity.
Qed.

Lemma run_phases_mode (ref : GoogleDriveFileInfo) (m1 m2 : DownloadMode)
    (token : string) (s s1 s2 : State) (p1 p2 : Phase) (u1 u2 : unit) :
  run_phases ref m1 token s = (s1, p1, Ok u1) ->
  run_phases ref m2 token s = (s2, p2, Ok u2) ->
  s1 = s2 /\ p1 = p2.
Proof.
  unfold run_phases.
  destruct (downloading ref m1 s) as [d1 [a1 | e1]] eqn:H1; [| discriminate].
  destruct (downloading ref m2 s) as [d2 [a2 | e2]] eqn:H2; [| discriminate].
  destruct (downloading_mode _ _ _ _ _ _ _ _ H1 H2) as [-> ->].
  intros Hrun1 Hrun2. rewrite Hrun1 in Hrun2.
  injection Hrun2 as -> -> _. split; reflexivity.
Qed.

Lemma install_mode (ref : GoogleDriveFileInfo) (m1 m2 : DownloadMode)
    (s s1 s2 : State) (u1 u2 : unit) :
  install ref m1 s = (s1, Ok u1) -> install ref m2 s = (s2, Ok u2) -> s1 = s2.
Proof.
  unfold install.
  destruct (running s); [discriminate |].
  destruct (target_running s); [discriminate |].
  destruct (extractVersionToken (name ref)) as [token | e]; [| discriminate].
  destruct (run_phases ref m1 token (set_running true s))
    as [[t1 p1] [v1 | e1]] eqn:H1; [| discriminate].
  destruct (run_phases ref m2 token (set_running true s))
    as [[t2 p2] [v2 | e2]] eqn:H2; [| discriminate].
  destruct (run_phases_mode _ _ _ _ _ _ _ _ _ _ _ H1 H2) as [-> ->].
  destruct v1, v2. intros [= <-] [= <-]. reflexivity.
Qed.

(** The install action of the main route hands the call to the back end
    with the mode the page holds. *)
Lemma Page_install_reaches_backend (w : World Page.State State)
    (latest : GoogleDriveFileInfo) (m : DownloadMode) :
  Page.latestVersion (page w) = Some latest ->
  Page.downloadMode (page w) = mode_string m ->
  backend (fst (Page.install w)) = fst (install latest m (backend w)).
Proof.
  intros Hl Hm.
  unfold Page.install, Js.bind, read, Js.get, Js.ret. cbn. rewrite Hl, Hm.
  unfold Js.try_finally, Js.try_catch, Js.bind, invoke, update, emit,
    Js.modify, Js.bind.
  destruct m; cbn;
    (destruct (install latest _ (backend w)) as [b [[] | e]]; cbn;
     [reflexivity | destruct e; reflexivity]).
Qed.

End ModeFacts.

(** C7: the download mode is a setting of the single call.  The install
    action of the main route sends the mode the page holds at that moment
    with the command, and the back end runs that very call with it; the
    state a completed run leaves behind, the install record included, is
    the same whichever mode the call carried, so nothing of the mode is
    kept. *)
Theorem download_mode_is_per_call
    (w : World Page.State Backend.State) (latest : GoogleDriveFileInfo)
    (m : DownloadMode)
    (Hlatest : Page.latestVersion (page w) = Some latest) :
  let chosen :=
    {| page := Page.setDownloadMode m (page w);
       backend := backend w; trace := trace w |} in
  (exists rest,
     trace (fst (Page.install chosen)) =
       trace w ++ Invoked (CmdInstallPob latest (Some (mode_string m))) :: rest
     /\ invoked rest = []) /\
  backend (fst (Page.install chosen))
    = fst (Backend.install latest m (backend w)) /\
  (forall ref m1 m2 s s1 s2,
     Backend.install ref m1 s = (s1, Ok tt) ->
     Backend.install ref m2 s = (s2, Ok tt) ->
     s1 = s2) /\
  (forall ref m1 s s1 r,
     Backend.install ref m1 s = (s1, r) ->
     Backend.installedVersion s1 = Backend.installedVersion s \/
     exists token,
       Backend.installedVersion s1 =
         Some {| version := token; fileId := id ref;
                 installedAt := Backend.clock s |}).
Proof.
  intros chosen. split; [| split; [| split]].
  - apply (Page_install_invokes chosen latest). exact Hlatest.
  - apply (Page_install_reaches_backend chosen latest m);
      [exact Hlatest | reflexivity].
  - intros ref m1 m2 s s1 s2. apply install_mode.
  - intros ref m1 s s1 [u | e] Hrun.
    + apply install_ok in Hrun as [(token & _ & Hrec) _]. right. eauto.
    + apply install_error in Hrun as [Hrec _]. left. exact Hrec.
Qed.

Lemma download_mode_is_per_call_witness :
  let w := Samples.world Samples.page_stale
             (Samples.backend_stale Backend.no_faults) in
  let chosen :=
    {| page := Page.setDownloadMode Single (page w);
       backend := backend w; trace := trace w |} in
  Page.latestVersion (page w) = Some Samples.artifact_2_40_1 /\
  (exists rest,
     trace (fst (Page.install chosen)) =
       trace w
       ++ Invoked (CmdInstallPob Samples.artifact_2_40_1
                     (Some (mode_string Single))) :: rest
     /\ invoked rest = []) /\
  backend (fst (Page.install chosen))
    = fst (Backend.install Samples.artifact_2_40_1 Single (backend w)).
Proof.
  intros w chosen. split; [reflexivity |].
  destruct (download_mode_is_per_call w Samples.artifact_2_40_1 Single
              eq_refl) as (Hsent & Hrun & _).
  split; [exact Hsent | exact Hrun].
Defined.

(** ** A cancelled install, end to end *)

(** When the back end answers the install command with [Cancelled], the
    main route ends with no visible error and has shown no error toast. *)
Lemma Page_install_cancelled {B : Type} `{Commands B}
    (w : World Page.State B) (latest : GoogleDriveFileInfo) (b : B) :
  Page.latestVersion (page w) = Some latest ->
  installPob latest (Some (Page.downloadMode (page w))) (backend w)
    = (b, Normal (Error Cancelled)) ->
  Page.error (page (fst (Page.install w))) = None /\
  filter is_error_toast (trace (fst (Page.install w)))
    = filter is_error_toast (trace w).
Proof.
  intros Hl Hanswer.
  unfold Page.install, Js.bind, read, Js.get, Js.ret. cbn. rewrite Hl.
  unfold Js.try_finally, Js.try_catch, Js.bind, invoke, update, emit,
    Js.modify, Js.bind. cbn.
  rewrite Hanswer. cbn. split; [reflexivity |].
  rewrite filter_app. cbn. apply app_nil_r.
Qed.

Example cancelled_download_is_silent :
  let w := Samples.world Samples.page_stale
             (Samples.backend_stale Samples.cancel_download) in
  Page.error (page (fst (Page.install w))) = None /\
  filter is_error_toast (trace (fst (Page.install w))) = [] /\
  (status <$> Backend.last_event (backend (fst (Page.install w))))
    = Some StatusCancelled.
Proof. vm_compute. repeat split. Qed.

(** A run that ends as [cancelled] is announced with an information toast
    on either page, never with an error toast. *)
Lemma cancelled_run_no_error_toast {B : Type} `{Commands B}
    (payload : InstallProgress) (w : World Page.State B)
    (w1 : World Part001.State B) :
  status payload = StatusCancelled ->
  Part001.installProgress (page w1) = Some payload ->
  filter is_error_toast (trace (fst (Page.onInstallProgress payload w)))
    = filter is_error_toast (trace w) /\
  filter is_error_toast (trace (fst (Part001.progress_effect w1)))
    = filter is_error_toast (trace w1).
Proof.
  intros Hst Hp. split.
  - unfold Page.onInstallProgress, Js.bind, update, toast, setTimeout, emit,
      Js.modify. cbn. rewrite Hst. cbn.
    rewrite <- app_assoc, filter_app. cbn. apply app_nil_r.
  - unfold Part001.progress_effect, Js.bind, read, Js.get, Js.ret, toast,
      setTimeout, emit, Js.modify. cbn. rewrite Hp, Hst. cbn.
    rewrite <- app_assoc, filter_app. cbn. apply app_nil_r.
Qed.

(** * Further properties of the sources *)

(** ** The updater store: download and install *)

Section DownloadFacts.
Import Updater.
Variable round_percent : nat -> nat -> nat.

Lemma on_event_frame (ev : DownloadEvent) (t : Transfer) (s : UpdateState) :
  let '(t', s') := on_event round_percent ev t s in
  downloaded t' =
    downloaded t + match ev with Progress chunk => chunk | _ => 0 end /\
  set_progress (progress s') s = s'.
Proof.
  destruct s, ev as [len | chunk |]; cbn; try case_match; cbn;
    split; try reflexivity; lia.
Qed.

Lemma feed_frame (evs : list DownloadEvent) (t : Transfer) (s : UpdateState) :
  downloaded (fst (feed round_percent evs t s)) = downloaded t + reported evs /\
  set_progress (progress (snd (feed round_percent evs t s))) s
    = snd (feed round_percent evs t s).
Proof.
  revert t s. induction evs as [| ev evs IH]; intros t s.
  - cbn. split; [lia | destruct s; reflexivity].
  - cbn [feed]. pose proof (on_event_frame ev t s) as Hev.
    destruct (on_event round_percent ev t s) as [t1 s1].
    destruct Hev as [Hbytes Hframe].
    destruct (IH t1 s1) as [IHb IHf]. split.
    + rewrite IHb, Hbytes. unfold reported. cbn. lia.
    + rewrite <- IHf at 2. rewrite <- Hframe. reflexivity.
Qed.

Lemma feed_unknown_length (evs : list DownloadEvent) (t : Transfer)
    (s : UpdateState) :
  contentLength t = 0 -> length_unknown evs = true ->
  has_finished evs = false ->
  progress (snd (feed round_percent evs t s)) = progress s.
Proof.
  revert t s. induction evs as [| ev evs IH]; intros t s Ht Hlen Hfin;
    [reflexivity |].
  cbn in Hlen, Hfin. apply andb_prop in Hlen as [Hev Hlen].
  apply orb_false_elim in Hfin as [Hev' Hfin].
  destruct ev as [[[| n] |] | chunk |]; try discriminate; cbn [feed on_event].
  - apply IH; [reflexivity | exact Hlen | exact Hfin].
  - apply IH; [reflexivity | exact Hlen | exact Hfin].
  - cbn. rewrite Ht. cbn. apply IH; [reflexivity | exact Hlen | exact Hfin].
Qed.

Lemma feed_app (evs1 evs2 : list DownloadEvent) (t : Transfer)
    (s : UpdateState) :
  feed round_percent (evs1 ++ evs2) t s =
    feed round_percent evs2 (fst (feed round_percent evs1 t s))
      (snd (feed round_percent evs1 t s)).
Proof.
  revert t s. induction evs1 as [| ev evs1 IH]; intros t s; [reflexivity |].
  cbn [app feed]. destruct (on_event round_percent ev t s) as [t1 s1].
  apply IH.
Qed.

(** X1: the callback of [downloadAndInstall] adds up the chunk lengths of
    the [Progress] events and touches nothing of the state but
    [progress]; as long as no positive content length was reported and no
    [Finished] event came, [progress] keeps its value; after a [Progress]
    event with a known length it is the rounded share of the bytes so
    far, and after a [Finished] event it is 100. *)
Theorem feed_tracks_download (evs : list DownloadEvent) (s : UpdateState) :
  let start := {| downloaded := 0; contentLength := 0 |} in
  let t' := fst (feed round_percent evs start s) in
  let s' := snd (feed round_percent evs start s) in
  downloaded t' = reported evs /\
  set_progress (progress s') s = s' /\
  (length_unknown evs = true -> has_finished evs = false ->
   progress s' = progress s) /\
  (forall before, evs = before ++ [Finished] -> progress s' = 100) /\
  (forall before chunk,
     evs = before ++ [Progress chunk] -> 0 < contentLength t' ->
     progress s' = round_percent (reported evs) (contentLength t')).
Proof.
  intros start t' s'. subst t' s'.
  destruct (feed_frame evs start s) as [Hbytes Hframe]. cbn in Hbytes.
  split; [exact Hbytes |]. split; [exact Hframe |].
  split; [intros Hlen Hfin; now apply feed_unknown_length |].
  split.
  - intros before ->. rewrite feed_app.
    destruct (feed round_percent before start s) as [t1 s1]. reflexivity.
  - intros before chunk ->. rewrite feed_app.
    pose proof (feed_frame before start s) as [Hb _]. cbn in Hb.
    destruct (feed round_percent before start s) as [t1 s1].
    cbn in Hb |- *. intros Hpos.
    destruct (contentLength t1) as [| n]; [lia |]. cbn.
    unfold reported. rewrite sum_list_with_app. cbn.
    fold (reported before). rewrite Hb. f_equal. lia.
Qed.

Variable events : list DownloadEvent.
Variable download relaunch : Completion unit.

(** The run of [downloadAndInstall] with an update at hand, spelled out. *)
Lemma downloadAndInstall_run (w : Session) (u : Update) :
  update (state w) = Some u ->
  exists s',
    downloadAndInstall round_percent events download relaunch w =
      ({| state := s';
          calls :=
            calls w
            ++ CallDownloadAndInstall u
               :: match download with
                  | Normal _ => [CallRelaunch]
                  | Throw _ => []
                  end |}, Normal tt) /\
    update s' = Some u /\
    downloading s' =
      match download, relaunch with
      | Normal _, Normal _ => true
      | _, _ => false
      end /\
    error s' =
      match download, relaunch with
      | Normal _, Normal _ => None
      | Normal _, Throw e => Some (error_text e)
      | Throw e, _ => Some (error_text e)
      end.
Proof.
  intros Hupdate.
  unfold downloadAndInstall, Js.bind, Js.get, Js.try_catch, Js.await,
    on_state, call_out, Js.modify, Js.bind. cbn. rewrite Hupdate.
  set (s0 := set_error None
               (set_progress 0 (set_downloading true (state w)))).
  destruct (feed_frame events {| downloaded := 0; contentLength := 0 |} s0)
    as [_ Hframe].
  set (s1 := snd (feed round_percent events _ s0)) in *.
  assert (Hkeep : update s1 = Some u /\ downloading s1 = true /\
                  error s1 = None).
  { rewrite <- Hframe. cbn. auto. }
  destruct Hkeep as (Hu & Hd & He).
  destruct download as [[] | e]; cbn; [destruct relaunch as [[] | e]; cbn |].
  - eexists. rewrite <- app_assoc. split; [reflexivity |]. auto.
  - eexists. rewrite <- app_assoc. split; [reflexivity |]. cbn. auto.
  - eexists. split; [reflexivity |]. cbn. destruct relaunch; auto.
Qed.

(** X2: with an update at hand, [downloadAndInstall] never throws.  When
    the download and the relaunch both succeed, the plugin was called and
    then the relaunch, [downloading] is still up and there is no error;
    when one of them rejects, [error] holds the text of the rejection,
    [downloading] is down again, and the relaunch was only asked for if
    the download had succeeded.  The update handle stays. *)
Theorem downloadAndInstall_settles (w : Session) (u : Update)
    (Hupdate : update (state w) = Some u) :
  let '(w', c) :=
    downloadAndInstall round_percent events download relaunch w in
  c = Normal tt /\
  update (state w') = Some u /\
  match download, relaunch with
  | Normal _, Normal _ =>
      calls w' = calls w ++ [CallDownloadAndInstall u; CallRelaunch] /\
      downloading (state w') = true /\ error (state w') = None
  | Normal _, Throw e =>
      calls w' = calls w ++ [CallDownloadAndInstall u; CallRelaunch] /\
      downloading (state w') = false /\
      error (state w') = Some (error_text e)
  | Throw e, _ =>
      calls w' = calls w ++ [CallDownloadAndInstall u] /\
      downloading (state w') = false /\
      error (state w') = Some (error_text e)
  end.
Proof.
  destruct (downloadAndInstall_run w u Hupdate) as (s' & -> & Hu & Hd & He).
  cbn. split; [reflexivity |]. split; [exact Hu |].
  destruct download as [[] | e]; [destruct relaunch as [[] | e] |];
    repeat split; assumption.
Qed.

End DownloadFacts.

Lemma downloadAndInstall_settles_witness :
  let w := {| Updater.state :=
                Updater.set_update (Some {| Updater.update_version := "0.2.0" |})
                  Updater.initial;
              Updater.calls := [] |} in
  let evs := [Updater.Started (Some 4); Updater.Progress 1;
              Updater.Progress 3] in
  let '(w', c) :=
    Updater.downloadAndInstall (fun d c => d * 100 / c) evs
      (Throw (ErrorObj "Error" "connection reset")) (Normal tt) w in
  c = Normal tt /\
  Updater.calls w'
    = [Updater.CallDownloadAndInstall {| Updater.update_version := "0.2.0" |}] /\
  Updater.downloading (Updater.state w') = false /\
  Updater.error (Updater.state w') = Some "connection reset".
Proof.
  intros w evs.
  pose proof (downloadAndInstall_settles (fun d c => d * 100 / c) evs
                (Throw (ErrorObj "Error" "connection reset")) (Normal tt) w
                {| Updater.update_version := "0.2.0" |} eq_refl) as Hrun.
  destruct (Updater.downloadAndInstall _ evs _ _ w) as [w' c].
  destruct Hrun as (Hc & _ & Hcalls & Hd & He).
  repeat split; assumption.
Defined.

(** ** The update dialog *)

(** X3: choosing "later" closes the dialog and resets the updater store,
    the update handle included; an install asked for after that does
    nothing at all: no call leaves the module and the store stays reset. *)
Theorem later_forgets_update
    (round_percent : nat -> nat -> nat)
    (events : list Updater.DownloadEvent) (download relaunch : Completion unit)
    (d : UpdateDialog.State) :
  let d1 := fst (UpdateDialog.handleLater d) in
  UpdateDialog.open d1 = false /\
  Updater.state (UpdateDialog.session d1) = Updater.initial /\
  Updater.calls (UpdateDialog.session d1)
    = Updater.calls (UpdateDialog.session d) /\
  UpdateDialog.handleInstall round_percent events download relaunch d1
    = (d1, Normal tt).
Proof. destruct d as [o [s c]]. repeat split. Qed.

(** X4: while a download runs the dialog offers no button; once an install
    has failed with a message, the dialog shows that message in place of
    the progress bar and offers both buttons again. *)
Theorem dialog_after_failed_install
    (round_percent : nat -> nat -> nat)
    (events : list Updater.DownloadEvent) (download relaunch : Completion unit)
    (d : UpdateDialog.State) (u : Updater.Update) (e : Js.Value)
    (Hupdate : Updater.update (Updater.state (UpdateDialog.session d)) = Some u)
    (Hfails : download = Throw e \/ (download = Normal tt /\ relaunch = Throw e))
    (Htext : Updater.error_text e <> "") :
  let d' :=
    fst (UpdateDialog.handleInstall round_percent events download relaunch d) in
  UpdateDialog.open d' = UpdateDialog.open d /\
  UpdateDialog.description (Updater.state (UpdateDialog.session d'))
    = UpdateDialog.ShowError (Updater.error_text e) /\
  UpdateDialog.footer (Updater.state (UpdateDialog.session d'))
    = [UpdateDialog.Later; UpdateDialog.Install] /\
  (forall s, Updater.downloading s = true -> UpdateDialog.footer s = []).
Proof.
  intros d'. subst d'. unfold UpdateDialog.handleInstall, UpdateDialog.on_session.
  destruct (downloadAndInstall_run round_percent events download relaunch
              (UpdateDialog.session d) u Hupdate) as (s' & -> & _ & Hd & He).
  cbn.
  assert (Hstate : Updater.downloading s' = false /\
                   Updater.error s' = Some (Updater.error_text e)).
  { destruct Hfails as [-> | [-> ->]]; auto. }
  clear Hd He. destruct Hstate as [Hd He].
  unfold UpdateDialog.description, UpdateDialog.footer. rewrite Hd, He.
  apply String.eqb_neq in Htext. rewrite Htext.
  repeat split. intros s ->. reflexivity.
Qed.

Lemma dialog_after_failed_install_witness :
  let d := {| UpdateDialog.open := true;
              UpdateDialog.session :=
                {| Updater.state :=
                     Updater.set_update
                       (Some {| Updater.update_version := "0.2.0" |})
                       Updater.initial;
                   Updater.calls := [] |} |} in
  let d' :=
    fst (UpdateDialog.handleInstall (fun d c => d * 100 / c)
           [Updater.Started None; Updater.Progress 10]
           (Normal tt) (Throw (Other "relaunch refused")) d) in
  Updater.error_text (Other "relaunch refused") <> "" /\
  UpdateDialog.open d' = true /\
  UpdateDialog.description (Updater.state (UpdateDialog.session d'))
    = UpdateDialog.ShowError "relaunch refused" /\
  UpdateDialog.footer (Updater.state (UpdateDialog.session d'))
    = [UpdateDialog.Later; UpdateDialog.Install].
Proof.
  intros d d'.
  assert (Htext : Updater.error_text (Other "relaunch refused") <> "")
    by discriminate.
  split; [exact Htext |].
  destruct (dialog_after_failed_install (fun d c => d * 100 / c)
              [Updater.Started None; Updater.Progress 10]
              (Normal tt) (Throw (Other "relaunch refused")) d
              {| Updater.update_version := "0.2.0" |}
              (Other "relaunch refused") eq_refl
              (or_intror (conj eq_refl eq_refl)) Htext)
    as (Ho & Hdesc & Hfoot & _).
  split; [exact Ho |]. split; [exact Hdesc | exact Hfoot].
Defined.

(** ** The settings page *)

Section SettingsPageFacts.
Import SettingsPage.

(** X5: the manual update check never throws and reports in exactly one
    way.  An update found opens the dialog without a toast; no update
    gives the success toast; a check that failed gives the error toast
    with the failure text, unless that text is empty, in which case the
    page reports the success toast as if there were no update. *)
Theorem manual_check_reports (check : Completion (option Updater.Update))
    (w : World) :
  let '(w', c) := handleManualUpdateCheck check w in
  c = Normal tt /\ settings w' = settings w /\
  Updater.checking (updater w') = false /\
  match check with
  | Normal (Some u) =>
      updateDialogOpen (page w') = true /\ output w' = output w
  | Normal None =>
      page w' = page w /\
      output w' = output w ++ [Shown ToastSuccess "최신 버전입니다" None]
  | Throw e =>
      page w' = page w /\
      output w' =
        output w
        ++ [if String.eqb (Updater.error_text e) ""
            then Shown ToastSuccess "최신 버전입니다" None
            else Shown ToastError "업데이트 확인 실패"
                   (Some (Updater.error_text e))]
  end.
Proof.
  unfold handleManualUpdateCheck, on_updater, Js.bind.
  destruct check as [[u |] | e]; cbn.
  - repeat split.
  - repeat split.
  - destruct (String.eqb (Updater.error_text e) ""); cbn; repeat split.
Qed.

(** X6: mounting the page ends with the loading flag down exactly when the
    settings store could be read; then the switch shows the stored value,
    or the default [true].  When the store cannot be read the mount
    rejects and the flag stays as it was, so the switch stays disabled.  A
    failing [getVersion] alone never makes the mount reject: the value it
    rejected with is handed to [console.error] behind the label, and the
    version stays unknown. *)
Theorem settings_page_mount (getVersion : Completion string)
    (io : Settings.StoreCall -> option Js.Value) (w : World) :
  let '(w', c) := onMount getVersion io w in
  match io Settings.CallGet with
  | None =>
      c = Normal tt /\ switch_disabled w' = false /\
      switch_checked w' =
        default true
          (Settings.entries (Settings.store (settings w))
             !! "autoCheckUpdate")
  | Some e =>
      c = Throw e /\ switch_disabled w' = switch_disabled w /\
      switch_checked w' = switch_checked w
  end /\
  match getVersion with
  | Normal v => appVersion (page w') = Some v /\ output w' = output w
  | Throw e =>
      appVersion (page w') = appVersion (page w) /\
      output w' = output w ++ [Logged "Failed to get app version:" e]
  end.
Proof.
  unfold onMount, all2, fetchAppVersion, on_settings, Js.bind, Js.try_catch,
    Js.await, on_page, put, Js.modify, Js.bind.
  unfold Settings.loadSettings, Settings.store_get, Settings.settle,
    Settings.with_store, Settings.set_autoCheckUpdate, Js.bind, Js.get,
    Js.await, Js.modify, Js.ret.
  destruct getVersion as [v | e]; destruct (io Settings.CallGet) as [e' |];
    cbn; repeat split.
Qed.

(** X7: once the page is mounted, flipping the switch to [checked] makes
    the switch show [checked] and writes it to the file, when the store
    takes it; when the store refuses the value, the handler rejects and
    the switch shows what it showed before. *)
Theorem switch_follows_store
    (io : Settings.StoreCall -> option Js.Value) (checked : bool) (w : World) :
  let '(w', c) := handleAutoCheckUpdateChange io checked w in
  match io Settings.CallSet, io Settings.CallSave with
  | None, None =>
      c = Normal tt /\ switch_checked w' = checked /\
      Settings.on_disk (Settings.store (settings w')) !! "autoCheckUpdate"
        = Some checked
  | None, Some e =>
      c = Throw e /\ switch_checked w' = switch_checked w /\
      Settings.on_disk (Settings.store (settings w'))
        = Settings.on_disk (Settings.store (settings w))
  | Some e, _ =>
      c = Throw e /\ w' = w
  end.
Proof.
  unfold handleAutoCheckUpdateChange, on_settings.
  unfold Settings.setAutoCheckUpdate, Settings.store_set, Settings.store_save,
    Settings.settle, Settings.with_store, Settings.set_autoCheckUpdate,
    Js.bind, Js.await, Js.modify.
  destruct (io Settings.CallSet) as [e |]; cbn.
  - split; [reflexivity |]. destruct w; reflexivity.
  - destruct (io Settings.CallSave) as [e |]; cbn.
    + repeat split.
    + split; [reflexivity |]. split; [reflexivity |].
      apply lookup_insert_eq.
Qed.

End SettingsPageFacts.

(** ** The settings store: failures and restarts *)

(** X8: when the store takes the new value but cannot save it,
    [setAutoCheckUpdate] rejects; the settings object and the file keep
    the old value while the store in memory already holds the new one, so
    a later [loadSettings] of the same session hands out the value that
    was never saved. *)
Theorem unsaved_value_comes_back
    (io io' : Settings.StoreCall -> option Js.Value) (v : bool)
    (s : Settings.State) (e : Js.Value)
    (Hset : io Settings.CallSet = None)
    (Hsave : io Settings.CallSave = Some e)
    (Hget : io' Settings.CallGet = None) :
  let '(s1, c) := Settings.setAutoCheckUpdate io v s in
  c = Throw e /\
  Settings.settings s1 = Settings.settings s /\
  Settings.on_disk (Settings.store s1) = Settings.on_disk (Settings.store s) /\
  exists s2 r,
    Settings.loadSettings io' s1 = (s2, Normal r) /\
    Settings.autoCheckUpdate (Settings.deref s2 r) = v.
Proof.
  unfold Settings.setAutoCheckUpdate, Settings.store_set, Settings.store_save,
    Settings.settle, Settings.with_store, Settings.set_autoCheckUpdate,
    Js.bind, Js.await, Js.modify.
  rewrite Hset, Hsave. cbn. repeat split.
  eexists _, _. split; [apply loadSettings_run; exact Hget |].
  cbn. unfold Settings.entries. cbn. rewrite lookup_insert_eq. reflexivity.
Qed.

Lemma unsaved_value_comes_back_witness :
  let io : Settings.StoreCall -> option Js.Value :=
    fun c => match c with
             | Settings.CallSave => Some (ErrorObj "Error" "disk full")
             | _ => None
             end in
  let s := Settings.initial {["autoCheckUpdate" := true]} in
  let '(s1, c) := Settings.setAutoCheckUpdate io false s in
  c = Throw (ErrorObj "Error" "disk full") /\
  Settings.settings s1 = Settings.settings s /\
  Settings.on_disk (Settings.store s1) = Settings.on_disk (Settings.store s) /\
  exists s2 r,
    Settings.loadSettings (fun _ => None) s1 = (s2, Normal r) /\
    Settings.autoCheckUpdate (Settings.deref s2 r) = false.
Proof.
  intros io s.
  exact (unsaved_value_comes_back io (fun _ => None) false s
           (ErrorObj "Error" "disk full") eq_refl eq_refl eq_refl).
Defined.

(** X9: a value set with [setAutoCheckUpdate] survives a restart: a module
    started afresh on the file the call left behind loads that value;
    every other entry the store held is in the file as well. *)
Theorem autoCheckUpdate_survives_restart
    (io io' : Settings.StoreCall -> option Js.Value) (v : bool)
    (s : Settings.State)
    (Hset : io Settings.CallSet = None)
    (Hsave : io Settings.CallSave = None)
    (Hget : io' Settings.CallGet = None) :
  let s1 := fst (Settings.setAutoCheckUpdate io v s) in
  let restarted := Settings.initial (Settings.on_disk (Settings.store s1)) in
  (exists s2 r,
     Settings.loadSettings io' restarted = (s2, Normal r) /\
     Settings.autoCheckUpdate (Settings.deref s2 r) = v) /\
  forall key,
    key <> "autoCheckUpdate" ->
    Settings.on_disk (Settings.store s1) !! key
      = Settings.entries (Settings.store s) !! key.
Proof.
  intros s1 restarted. subst restarted s1.
  rewrite setAutoCheckUpdate_run by assumption. cbn. split.
  - eexists _, _. split; [apply loadSettings_run; exact Hget |].
    cbn. unfold Settings.entries. cbn. rewrite lookup_insert_eq. reflexivity.
  - intros key Hkey. apply lookup_insert_ne. congruence.
Qed.

Lemma autoCheckUpdate_survives_restart_witness :
  let io : Settings.StoreCall -> option Js.Value := fun _ => None in
  let s := Settings.initial {["autoCheckUpdate" := true]} in
  let s1 := fst (Settings.setAutoCheckUpdate io false s) in
  let restarted := Settings.initial (Settings.on_disk (Settings.store s1)) in
  exists s2 r,
    Settings.loadSettings io restarted = (s2, Normal r) /\
    Settings.autoCheckUpdate (Settings.deref s2 r) = false.
Proof.
  intros io s s1 restarted.
  exact (proj1 (autoCheckUpdate_survives_restart io io false s
                  eq_refl eq_refl eq_refl)).
Defined.

(** ** The main route between and during its actions *)

Ltac unfold_handlers :=
  unfold Page.act, Page.fetchInstallPath, Page.checkInstalledVersion,
    Page.checkLatestVersion, Page.install, Page.cancelInstall,
    Page.uninstall, Page.execute, Page.onInstallProgress, Page.handleError,
    Js.try_finally, Js.try_catch, Js.when, invoke, toast, setTimeout, update,
    emit, read, Js.bind, Js.get, Js.ret, Js.modify.

Ltac split_answer :=
  match goal with
  | |- context [getInstallPath ?b] =>
      destruct (getInstallPath b) as [? [[? | ?] | ?]] eqn:?
  | |- context [installedPobInfo ?b] =>
      destruct (installedPobInfo b) as [? [[? | ?] | ?]] eqn:?
  | |- context [fetchPob ?r ?b] =>
      destruct (fetchPob r b) as [? [[? | ?] | ?]] eqn:?
  | |- context [parseVersion ?n ?b] =>
      destruct (parseVersion n b) as [? [[? | ?] | ?]] eqn:?
  | |- context [installPob ?l ?m ?b] =>
      destruct (installPob l m b) as [? [[? | ?] | ?]] eqn:?
  | |- context [cancelInstallPob ?b] =>
      destruct (cancelInstallPob b) as [? [[? | ?] | ?]] eqn:?
  | |- context [uninstallPob ?b] =>
      destruct (uninstallPob b) as [? [[? | ?] | ?]] eqn:?
  | |- context [executePob ?b] =>
      destruct (executePob b) as [? [[? | ?] | ?]] eqn:?
  end; cbn.

Ltac split_errors :=
  repeat match goal with
         | e : ErrorKind |- _ => destruct e; cbn
         end.

(** Every way an action can go, one goal each. *)
Ltac every_outcome :=
  unfold_handlers; cbn;
  try match goal with
      | |- context [match Page.latestVersion ?p with _ => _ end] =>
          destruct (Page.latestVersion p) eqn:?; cbn
      end;
  repeat split_answer; split_errors;
  unfold_handlers; cbn;
  repeat split_answer; split_errors;
  try match goal with r : bool |- _ => destruct r; cbn end;
  try match goal with
      | p : InstallProgress |- _ => destruct (status p); cbn
      end.

Lemma act_keeps_rest {B : Type} `{Commands B}
    (a : Page.Action) (w : World Page.State B) :
  Page.at_rest (page w) -> Page.at_rest (page (fst (Page.act a w))).
Proof.
  intros (Hl & Hf & Hv). unfold Page.at_rest.
  destruct a; every_outcome.
  all: repeat split; try assumption; try reflexivity; try congruence.
  all: try (intros Hs; specialize (Hv Hs); congruence).
Qed.

Lemma run_keeps_rest {B : Type} `{Commands B}
    (acts : list Page.Action) (w : World Page.State B) :
  Page.at_rest (page w) -> Page.at_rest (page (Page.run acts w)).
Proof.
  revert w. induction acts as [| a rest IH]; intros w Hw; [exact Hw |].
  cbn. apply IH, act_keeps_rest, Hw.
Qed.

(** X10: on the main route, whatever sequence of actions has run to its
    end and whatever the back end answered or however its promises
    rejected, both busy flags ([isLoading], [isFetchingLatest]) are down
    again, and a latest version token is only known together with the
    artifact it was parsed from. *)
Theorem page_at_rest_between_actions {B : Type} `{Commands B}
    (storage : gmap string string) (b : B)
    (acts : list Page.Action) :
  Page.at_rest
    (page (Page.run acts
             {| page := Page.initial storage; backend := b; trace := [] |})).
Proof.
  apply run_keeps_rest. cbn. repeat split; auto.
Qed.

(** X11: of all the actions of the main route only [fetchInstallPath] and
    [execute] let a rejected command escape (they have no [try]); every
    other action returns normally, whatever the back end does. *)
Theorem page_actions_settle {B : Type} `{Commands B}
    (a : Page.Action) (w : World Page.State B) :
  snd (Page.act a w) =
    match a with
    | Page.ActFetchInstallPath =>
        match snd (getInstallPath (backend w)) with
        | Throw e => Throw e
        | Normal _ => Normal tt
        end
    | Page.ActExecute =>
        match snd (executePob (backend w)) with
        | Throw e => Throw e
        | Normal _ => Normal tt
        end
    | _ => Normal tt
    end.
Proof.
  destruct a; every_outcome; reflexivity.
Qed.

Example rejected_command_escapes_execute :
  let w := Doubles.world Doubles.page_mounted
             (Doubles.unreachable (Other "ipc closed")) in
  snd (Page.execute w) = Throw (Other "ipc closed") /\
  snd (Page.install w) = Normal tt /\
  Page.error (page (fst (Page.install w))) =
    Some {| kind := "unknown"; message := Some "오류: ipc closed" |}.
Proof. repeat split; reflexivity. Qed.

(** What a template literal makes of a caught [Error]. *)
Example caught_error_texts :
  Page.unknown_error "오류: " (ErrorObj "TypeError" "Failed to fetch")
    = {| kind := "unknown";
         message := Some "오류: TypeError: Failed to fetch" |} /\
  Js.to_string (ErrorObj "Error" "") = "Error" /\
  Js.to_string (ErrorObj "" "closed") = "closed".
Proof. repeat split; reflexivity. Qed.

Lemma act_keeps_mode {B : Type} `{Commands B}
    (a : Page.Action) (w : World Page.State B) :
  Page.downloadMode (page w) = Page.initial_downloadMode
                                 (Page.localStorage (page w)) ->
  Page.downloadMode (page (fst (Page.act a w))) =
    Page.initial_downloadMode (Page.localStorage (page (fst (Page.act a w)))).
Proof.
  intros Hm.
  destruct a; every_outcome; try exact Hm.
  all: unfold Page.initial_downloadMode; rewrite lookup_insert_eq.
  all: match goal with m : DownloadMode |- _ => destruct m end; reflexivity.
Qed.

(** X12: the download mode shown on the main route is at every moment
    the one a reload would start with: after any sequence of actions, a
    page opened on the local storage as it then is begins with the same
    [downloadMode]. *)
Theorem download_mode_survives_reload {B : Type} `{Commands B}
    (storage : gmap string string) (b : B)
    (acts : list Page.Action) :
  let w := Page.run acts
             {| page := Page.initial storage; backend := b; trace := [] |} in
  Page.downloadMode (Page.initial (Page.localStorage (page w))) =
    Page.downloadMode (page w).
Proof.
  cbn.
  set (w0 := {| page := Page.initial storage; backend := b; trace := [] |}).
  assert (Hstart : Page.downloadMode (page w0) =
                     Page.initial_downloadMode (Page.localStorage (page w0)))
    by reflexivity.
  clearbody w0. revert w0 Hstart.
  induction acts as [| a rest IH]; intros w0 Hstart; cbn.
  - symmetry. exact Hstart.
  - apply IH, act_keeps_mode, Hstart.
Qed.

(** X13: when the latest artifact is found but [parseVersion] answers with
    an error, [checkLatestVersion] replaces the artifact and leaves the
    version token as it was: no error is shown, the update banner is
    computed from the old token, and a manual refresh still reports
    success. *)
Theorem unparsed_name_keeps_old_token {B : Type} `{Commands B} (refresh : bool)
    (w : World Page.State B) (b1 b2 : B) (data : GoogleDriveFileInfo)
    (e : ErrorKind)
    (Hfetch : fetchPob refresh (backend w) = (b1, Normal (Ok data)))
    (Hparse : parseVersion (name data) b1 = (b2, Normal (Error e))) :
  let w' := fst (Page.checkLatestVersion refresh w) in
  Page.latestVersion (page w') = Some data /\
  Page.latestVersionString (page w') = Page.latestVersionString (page w) /\
  Page.error (page w') = None /\
  Page.banner (page w') = Page.banner (page w) /\
  trace w' =
    trace w
    ++ [Invoked (CmdFetchPob refresh); Invoked (CmdParseVersion (name data))]
    ++ (if refresh
        then [Toast ToastSuccess "새로고침 완료"
                (Some "최신 버전 정보를 가져왔습니다.")]
        else []).
Proof.
  unfold_handlers; cbn. rewrite Hfetch; cbn. rewrite Hparse; cbn.
  destruct refresh; cbn; rewrite <- ?app_assoc; repeat split; reflexivity.
Qed.

Lemma unparsed_name_keeps_old_token_witness :
  let w := Doubles.world Doubles.page_stale_mounted Doubles.unversioned in
  let w' := fst (Page.checkLatestVersion true w) in
  Page.latestVersion (page w') = Some Doubles.artifact_unversioned /\
  Page.latestVersionString (page w') = Some "2.40.1" /\
  Page.error (page w') = None /\
  Page.banner (page w') = Some Page.BannerUpdateAvailable /\
  trace w' =
    [Invoked (CmdFetchPob true);
     Invoked (CmdParseVersion "PathOfBuilding-win64.zip");
     Toast ToastSuccess "새로고침 완료" (Some "최신 버전 정보를 가져왔습니다.")].
Proof.
  exact (unparsed_name_keeps_old_token true
           (Doubles.world Doubles.page_stale_mounted Doubles.unversioned)
           Doubles.unversioned Doubles.unversioned
           Doubles.artifact_unversioned (Domain "no version in file name")
           eq_refl eq_refl).
Defined.

(** X14: [cancelInstall] does not look at the answer of the command: when
    the promise settles, with a success or with an error result, the page
    state is untouched and nothing is shown; only the command was sent. *)
Theorem cancel_answer_is_ignored {B : Type} `{Commands B}
    (w : World Page.State B) (b : B)
    (r : Result unit)
    (Hanswer : cancelInstallPob (backend w) = (b, Normal r)) :
  Page.cancelInstall w =
    ({| page := page w; backend := b;
        trace := trace w ++ [Invoked CmdCancelInstallPob] |}, Normal tt).
Proof.
  unfold_handlers; cbn. rewrite Hanswer. reflexivity.
Qed.

Lemma cancel_answer_is_ignored_witness :
  let w := Doubles.world Samples.page_stale
             (Doubles.refusing (Conflict "no install is running")) in
  Page.cancelInstall w =
    ({| page := Samples.page_stale;
        backend := Doubles.refusing (Conflict "no install is running");
        trace := [Invoked CmdCancelInstallPob] |}, Normal tt).
Proof.
  exact (cancel_answer_is_ignored
           (Doubles.world Samples.page_stale
              (Doubles.refusing (Conflict "no install is running")))
           _ (Error (Conflict "no install is running")) eq_refl).
Defined.

(** X15: once [uninstallPob] has answered with success, [uninstall] ends
    with the success toast and with the dialog closed and the busy flag
    down, whatever the following read of the install record gives; the
    installed version shown is the one that read returned, and stays the
    old one when the read fails. *)
Theorem uninstall_reports_success {B : Type} `{Commands B}
    (w : World Page.State B) (b1 : B) (u : unit)
    (Hun : uninstallPob (backend w) = (b1, Normal (Ok u))) :
  let w' := fst (Page.uninstall w) in
  snd (Page.uninstall w) = Normal tt /\
  last (trace w') =
    Some (Toast ToastSuccess "제거 완료"
            (Some "Path of Building이 제거되었습니다.")) /\
  Page.showUninstallDialog (page w') = false /\
  Page.isLoading (page w') = false /\
  Page.installedVersion (page w') =
    match snd (installedPobInfo b1) with
    | Normal (Ok v) => v
    | _ => Page.installedVersion (page w)
    end.
Proof.
  unfold_handlers; cbn. rewrite Hun; cbn.
  unfold_handlers; cbn.
  destruct (installedPobInfo b1) as [b2 [[v | e] | e]]; cbn.
  2: destruct e; cbn.
  all: rewrite ?last_snoc; repeat split; reflexivity.
Qed.

Lemma uninstall_reports_success_witness :
  let w := Doubles.world Samples.page_stale Doubles.removed_unreadable in
  let w' := fst (Page.uninstall w) in
  snd (Page.uninstall w) = Normal tt /\
  last (trace w') =
    Some (Toast ToastSuccess "제거 완료"
            (Some "Path of Building이 제거되었습니다.")) /\
  Page.showUninstallDialog (page w') = false /\
  Page.isLoading (page w') = false /\
  Page.installedVersion (page w') = Some Samples.record_2_40_0.
Proof.
  exact (uninstall_reports_success
           (Doubles.world Samples.page_stale Doubles.removed_unreadable)
           Doubles.removed_unreadable tt eq_refl).
Defined.

(** X16: an [installProgress] event is stored as it comes and never
    reaches the back end; a running status ([started], [inProgress])
    keeps the page installing and shows nothing, every other status
    ends the run on the page with exactly one toast, of the level that
    belongs to the status, followed by the delayed re-read of the
    installed version. *)
Theorem progress_event_effects {B : Type} `{Commands B}
    (payload : InstallProgress)
    (w : World Page.State B) :
  let w' := fst (Page.onInstallProgress payload w) in
  Page.installProgress (page w') = Some payload /\
  backend w' = backend w /\
  invoked (trace w') = invoked (trace w) /\
  Page.isInstalling (page w') = Page.status_running payload /\
  if Page.status_running payload then trace w' = trace w
  else exists title text,
    trace w' =
      trace w
      ++ [Toast (match status payload with
                 | Completed => ToastSuccess
                 | Failed => ToastError
                 | _ => ToastInfo
                 end) title text;
          SetTimeout CheckInstalledVersion 500].
Proof.
  unfold Page.isInstalling. unfold_handlers; cbn.
  unfold Page.status_running.
  destruct (status payload) eqn:Hstatus; cbn; rewrite ?Hstatus.
  all: repeat split; try reflexivity.
  all: rewrite <- ?app_assoc; cbn.
  all: try (unfold invoked; rewrite omap_app; cbn; apply app_nil_r).
  all: do 2 eexists; reflexivity.
Qed.

(** X17: an install answered with an error of kind [conflict] ends with the
    warning alert (default variant, title "경고") carrying the message of
    the error, one error toast, the busy flag down and no progress
    shown. *)
Theorem install_conflict_is_warning {B : Type} `{Commands B}
    (w : World Page.State B)
    (latest : GoogleDriveFileInfo) (b : B) (e : ErrorKind)
    (Hlatest : Page.latestVersion (page w) = Some latest)
    (Hanswer :
       installPob latest (Some (Page.downloadMode (page w))) (backend w)
       = (b, Normal (Error e)))
    (Hkind : Bindings.kind e = "conflict") :
  let w' := fst (Page.install w) in
  Page.error_alert (page w') =
    Some {| variant := VariantDefault; title := "경고";
            description := Bindings.message e |} /\
  Page.isLoading (page w') = false /\
  Page.installProgress (page w') = None /\
  trace w' =
    trace w
    ++ [Invoked (CmdInstallPob latest (Some (Page.downloadMode (page w))));
        Toast ToastError "설치 실패" (Bindings.message e)].
Proof.
  unfold_handlers; cbn. rewrite Hlatest; cbn. rewrite Hanswer; cbn.
  destruct e; try discriminate Hkind; cbn.
  rewrite <- app_assoc. repeat split; reflexivity.
Qed.

Lemma install_conflict_is_warning_witness :
  let w := Doubles.world Samples.page_stale
             (Doubles.refusing (Conflict "target is running")) in
  let w' := fst (Page.install w) in
  Page.error_alert (page w') =
    Some {| variant := VariantDefault; title := "경고";
            description := Some "target is running" |} /\
  Page.isLoading (page w') = false /\
  Page.installProgress (page w') = None /\
  trace w' =
    [Invoked (CmdInstallPob Samples.artifact_2_40_1 (Some "auto"));
     Toast ToastError "설치 실패" (Some "target is running")].
Proof.
  exact (install_conflict_is_warning
           (Doubles.world Samples.page_stale
              (Doubles.refusing (Conflict "target is running")))
           Samples.artifact_2_40_1 _ (Conflict "target is running")
           eq_refl eq_refl eq_refl).
Defined.

(** X18: an install or update button of the card footer that is not
    disabled always leads to the command: the page is then neither
    loading nor installing and knows the latest artifact, and [install]
    sends [installPob] for it with the current download mode as the only
    command. *)
Theorem enabled_install_button_installs {B : Type} `{Commands B}
    (w : World Page.State B)
    (btn : Page.Button)
    (Hbtn : (btn, false) ∈ Page.footer (page w))
    (Hkind : btn = Page.BtnInstall \/ btn = Page.BtnUpdate) :
  exists latest,
    Page.latestVersion (page w) = Some latest /\
    Page.isLoading (page w) = false /\
    Page.isInstalling (page w) = false /\
    invoked (trace (fst (Page.install w))) =
      invoked (trace w)
      ++ [CmdInstallPob latest (Some (Page.downloadMode (page w)))].
Proof.
  assert (Hfree : Page.isLoading (page w) = false /\
                  Page.latestVersion (page w) <> None /\
                  Page.isInstalling (page w) = false).
  { unfold Page.footer in Hbtn.
    destruct (Page.isInitialLoading (page w));
      [apply elem_of_nil in Hbtn; destruct Hbtn |].
    assert (Hoff : Page.isLoading (page w)
                   || bool_decide (Page.latestVersion (page w) = None)
                   || Page.isInstalling (page w) = false).
    { destruct (negb (Page.isInstalled (page w)));
        [| destruct (Page.hasUpdate (page w))].
      - apply list_elem_of_singleton in Hbtn. congruence.
      - rewrite !elem_of_cons, elem_of_nil in Hbtn.
        destruct Hkind as [-> | ->];
          destruct Hbtn as [Hb | [Hb | [Hb | []]]]; congruence.
      - rewrite !elem_of_cons, elem_of_nil in Hbtn.
        destruct Hkind as [-> | ->];
          destruct Hbtn as [Hb | [Hb | []]]; congruence. }
    apply orb_false_iff in Hoff as [Hoff Hi].
    apply orb_false_iff in Hoff as [Hl Hn].
    apply bool_decide_eq_false in Hn. auto. }
  destruct Hfree as (Hl & Hn & Hi).
  destruct (Page.latestVersion (page w)) as [latest |] eqn:Hlatest;
    [| congruence].
  exists latest. repeat split; try assumption.
  destruct (Page_install_invokes w latest Hlatest) as (rest & -> & Hrest).
  unfold invoked in *. rewrite omap_app. cbn. rewrite Hrest. reflexivity.
Qed.

Lemma enabled_install_button_installs_witness :
  let w := Doubles.world Doubles.page_mounted Doubles.unversioned in
  exists latest,
    Page.latestVersion (page w) = Some latest /\
    Page.isLoading (page w) = false /\
    Page.isInstalling (page w) = false /\
    invoked (trace (fst (Page.install w))) =
      invoked (trace w)
      ++ [CmdInstallPob latest (Some (Page.downloadMode (page w)))].
Proof.
  refine (enabled_install_button_installs
            (Doubles.world Doubles.page_mounted Doubles.unversioned)
            Page.BtnInstall _ (or_introl eq_refl)).
  vm_compute. constructor.
Defined.

(** ** What the two pages offer *)

(** X19: on the main route the cancel button exists only in the progress
    card, and is offered exactly while an install runs (and the first load
    is over); for that time every button of the card footer is disabled,
    so no second install, run or uninstall can be started from it. *)
Theorem cancel_only_while_installing (s : Page.State) :
  ((Page.BtnCancel, false) ∈ Page.progress_card s <->
     Page.isInitialLoading s = false /\ Page.isInstalling s = true) /\
  (Page.isInstalling s = true ->
     Forall (fun b => snd b = true) (Page.footer s)) /\
  (forall disabled, (Page.BtnCancel, disabled) ∉ Page.footer s).
Proof.
  split; [| split].
  - unfold Page.progress_card.
    destruct (Page.isInitialLoading s), (Page.isInstalling s);
      rewrite ?list_elem_of_singleton, ?elem_of_nil;
      intuition congruence.
  - intros Hrun. unfold Page.footer. rewrite Hrun, !orb_true_r.
    repeat case_match; repeat constructor.
  - intros disabled. unfold Page.footer.
    repeat case_match; rewrite ?elem_of_cons, elem_of_nil;
      intros Hin; decompose [or] Hin; congruence.
Qed.

(** X20: on the redesigned page the cancel button and the progress bar
    both hang on the status [updating], which needs an installed version:
    they are shown exactly when the first load is over, a version is
    installed and an install runs.  During a first install neither is
    there. *)
Theorem Part001_cancel_needs_installed (s : Part001.State) :
  let running :=
    Part001.isInitialLoading s = false /\
    Part001.installedVersion s <> None /\
    Part001.isInstalling s = true in
  ((exists disabled, (Page.BtnCancel, disabled) ∈ Part001.primary_actions s)
     <-> running) /\
  (Part001.progress_bar s <> None <-> running).
Proof.
  cbn zeta.
  unfold Part001.primary_actions, Part001.progress_bar, Part001.appStatus.
  destruct (Part001.isInitialLoading s), (Part001.installedVersion s),
    (Part001.isInstalling s); cbn.
  all: repeat match goal with
         | |- context [if ?c then _ else _] => destruct c
         end.
  all: split; split.
  all: try (intros [disabled Hin]; exfalso; revert Hin;
            rewrite ?elem_of_cons, elem_of_nil;
            intros Hin; decompose [or] Hin; congruence).
  all: try (intros (? & ? & ?); congruence).
  all: try (intros _; repeat split; congruence).
  all: try congruence.
  all: intros _; eexists; apply list_elem_of_singleton; reflexivity.
Qed.

Example first_install_shows_no_progress :
  Part001.isInstalling Doubles.part001_first_install = true /\
  Part001.primary_actions Doubles.part001_first_install
    = [(Page.BtnInstall, false)] /\
  Part001.progress_bar Doubles.part001_first_install = None.
Proof. repeat split; reflexivity. Qed.

(** X21: the two pages name the phases alike.  Every phase of the
    bindings has a text of its own, the same on both pages.  For any other
    key the redesigned page answers from its table: the text of
    ["preparing"], which the main route does not know; for a name that an
    object literal inherits (["constructor"], ["toString"], ...) the
    inherited member, where the main route hands the key back; and for
    every key besides these what the main route gives, the key itself. *)
Theorem phase_texts_agree (t : string) :
  Part001.getPhaseText t =
    (if String.eqb t "preparing" then Js.Str "준비 중"
     else if bool_decide (t ∈ Js.object_prototype_keys) then Js.Inherited t
     else Js.Str (Page.getPhaseText t)) /\
  (forall p : Phase,
     Part001.getPhaseText (phase_string p)
       = Js.Str (Page.getPhaseText (phase_string p)) /\
     Page.getPhaseText (phase_string p) <> phase_string p).
Proof.
  split; [| intros p; destruct p; split; (reflexivity || discriminate)].
  unfold Part001.getPhaseText, Js.member, Part001.PHASE_TEXT,
    Page.getPhaseText.
  unfold list_to_map; cbn [foldr fst snd].
  destruct (String.eqb_spec t "preparing") as [-> | ?]; [reflexivity |].
  rewrite lookup_insert_ne by congruence.
  repeat match goal with
         | |- context [String.eqb t ?k] =>
             destruct (String.eqb_spec t k) as [-> | ?];
               [reflexivity | rewrite lookup_insert_ne by congruence]
         end.
  rewrite lookup_empty.
  destruct (bool_decide (t ∈ Js.object_prototype_keys)); reflexivity.
Qed.

Example inherited_phase_name :
  Part001.getPhaseText "constructor" = Js.Inherited "constructor" /\
  Page.getPhaseText "constructor" = "constructor" /\
  Part001.getPhaseText "unpacking" = Js.Str "unpacking".
Proof. repeat split; reflexivity. Qed.

(** ** The navigation *)

Lemma prefix_cons (a b : ascii) (p s : string) :
  String.prefix (String a p) (String b s) =
    if Ascii.eqb a b then String.prefix p s else false.
Proof.
  cbn. destruct (ascii_dec a b) as [-> | Hne].
  - rewrite Ascii.eqb_refl. reflexivity.
  - apply Ascii.eqb_neq in Hne. rewrite Hne. reflexivity.
Qed.

Lemma active_root (t p : string) :
  Navigation.isActive {| Navigation.title := t; Navigation.url := "/" |} p
    = true ->
  p = "/".
Proof.
  unfold Navigation.isActive. cbn [Navigation.url].
  change (String.eqb "/" "/") with true. cbv iota. apply String.eqb_eq.
Qed.

Lemma active_below (t : string) (a : ascii) (u p : string) :
  Navigation.isActive
    {| Navigation.title := t; Navigation.url := String "/" (String a u) |} p
    = true ->
  exists rest, p = String "/" (String a rest).
Proof.
  unfold Navigation.isActive. cbn [Navigation.url].
  change (String.eqb (String "/" (String a u)) "/") with false. cbv iota.
  destruct p as [| c1 [| c2 rest]].
  - discriminate.
  - rewrite prefix_cons.
    destruct (Ascii.eqb "/" c1); [cbn [String.prefix] |]; discriminate.
  - rewrite !prefix_cons.
    destruct (Ascii.eqb_spec "/" c1) as [<- |]; [| discriminate].
    destruct (Ascii.eqb_spec a c2) as [<- |]; [| discriminate].
    intros _. eexists; reflexivity.
Qed.

(** X22: in the sidebar at most one menu entry is highlighted, whatever the
    path; and on the path of a menu entry it is that entry and no
    other.  This holds for the menu of two entries and for the one of
    four. *)
Theorem one_menu_entry_active (pathname : string) :
  let active menu :=
    List.filter (fun item => Navigation.isActive item pathname) menu in
  (length (active Navigation.menuItems) <= 1 /\
   length (active Navigation.menuItemsWide) <= 1) /\
  (forall menu item,
     menu = Navigation.menuItems \/ menu = Navigation.menuItemsWide ->
     In item menu -> pathname = Navigation.url item ->
     active menu = [item]).
Proof.
  cbn zeta. split.
  - unfold Navigation.menuItems, Navigation.menuItemsWide.
    cbn [List.filter].
    repeat match goal with
           | |- context [Navigation.isActive ?i pathname] =>
               let Hactive := fresh "Hactive" in
               destruct (Navigation.isActive i pathname) eqn:Hactive
           end.
    all: cbn [length]; try lia.
    all: exfalso.
    all: repeat match goal with
                | Hactive : Navigation.isActive _ _ = true |- _ =>
                    first [ apply active_root in Hactive
                          | apply active_below in Hactive as [? Hactive] ]
                end.
    all: congruence.
  - intros menu item [-> | ->] Hin ->; cbn in Hin;
      decompose [or] Hin; subst; try contradiction; reflexivity.
Qed.

(** X23: the header and the sidebar of four entries agree: on the path of
    each menu entry the title in the header is the title of that entry.
    Below such a path the sidebar still highlights the entry while the
    header falls back to "페이지", since it looks the path up as a
    whole. *)
Theorem header_title_matches_menu :
  Forall (fun item =>
            Navigation.currentTitle (Navigation.url item)
            = Navigation.title item)
    Navigation.menuItemsWide /\
  (forall item rest, In item Navigation.menuItemsWide ->
     Navigation.url item <> "/" ->
     Navigation.isActive item (Navigation.url item +:+ "/" +:+ rest) = true /\
     Navigation.currentTitle (Navigation.url item +:+ "/" +:+ rest)
       = "페이지").
Proof.
  split; [repeat constructor |].
  intros item rest Hin Hroot. cbn in Hin.
  decompose [or] Hin; subst; try contradiction; cbn in Hroot;
    try congruence.
  all: split; [reflexivity |].
  all: unfold Navigation.currentTitle, Navigation.routeTitles.
  all: unfold list_to_map; cbn [foldr fst snd Navigation.url].
  all: rewrite !append_cons, append_empty_l.
  all: rewrite !lookup_insert_ne by discriminate.
  all: rewrite lookup_empty; reflexivity.
Qed.
